(** * WebFileManager: file sharing, grants and the real-time channel

    A shallow embedding of the server side of the repository
    ([shared/schema.ts], [server/storage.ts], [server/routes.ts]) and of the
    share dialog of the client, followed by the properties of the
    authorization-and-notification core.

    Conventions of the embedding.
    - A JavaScript [number] that holds a row id is a [Z]; route parameters
      are taken after [parseInt], as integers.
    - A table is the list of its rows in storage order: [const [row] = ...]
      takes the first row of a result, and nothing but the primary key keeps
      two rows apart, so order and duplicates are kept.
    - [createdAt] columns ([defaultNow()]) are left out: no route reads them.
    - An [async] route whose promise is rejected outside a [try] sends no
      response of its own; this is the reply [Unhandled].
    - The upload route and the body of the download route stand beside the
      server's [step]: they need the sequence behind [files.id] and the
      contents of the uploads, which no other route reads. *)

From stdpp Require Import base option list gmap strings.
From Stdlib Require Import ZArith Lia.

Local Open Scope Z_scope.

(** ** shared/schema.ts: the three tables *)

Module User.
Record t := mk { id : Z; username : string; password : string; isAdmin : bool }.
End User.

Module File.
Record t := mk {
  id : Z; name : string; path : string; size : Z; mimeType : string;
  uploadedBy : Z }.
End File.

Module FilePermission.
Record t := mk {
  id : Z; fileId : Z; userId : Z;
  canRead : bool; canWrite : bool; canShare : bool }.
End FilePermission.

(** [InsertFilePermission]: what the POST route hands to the store.  The
    route copies [req.body.userId] unchecked, so it may be [undefined]. *)
Module InsertFilePermission.
Record t := mk {
  fileId : Z; userId : option Z;
  canRead : bool; canWrite : bool; canShare : bool }.
End InsertFilePermission.

(** The object literal of the PATCH route: three keys, each possibly
    [undefined] (a key the update leaves alone). *)
Module PermissionPatch.
Record t := mk {
  canRead : option bool; canWrite : option bool; canShare : option bool }.
End PermissionPatch.

(** The database: the rows of each table and the sequence behind
    [file_permissions.id] ([serial]). *)
Record Db := mkDb {
  users : list User.t;
  files : list File.t;
  filePermissions : list FilePermission.t;
  filePermissions_id_seq : Z }.

Definition set_filePermissions (db : Db) (ps : list FilePermission.t) : Db :=
  mkDb (users db) (files db) ps (filePermissions_id_seq db).

(** ** server/storage.ts: DatabaseStorage *)

Inductive DbError :=
  | NotNullViolation
  | ForeignKeyViolation
  | NoValuesToSet.

Inductive Result (A : Type) :=
  | Ok (a : A)
  | Err (e : DbError).
Arguments Ok {A} a.
Arguments Err {A} e.

Definition getUser (db : Db) (id : Z) : option User.t :=
  head (filter (λ u, User.id u = id) (users db)).

Definition getAllUsers (db : Db) : list User.t := users db.

Definition getFiles (db : Db) : list File.t := files db.

Definition getFile (db : Db) (id : Z) : option File.t :=
  head (filter (λ f, File.id f = id) (files db)).

Definition getFilePermissions (db : Db) (fileId : Z) : list FilePermission.t :=
  filter (λ p, FilePermission.fileId p = fileId) (filePermissions db).

Definition getUserFilePermission (db : Db) (fileId userId : Z)
  : option FilePermission.t :=
  head (filter (λ p, FilePermission.fileId p = fileId
                     ∧ FilePermission.userId p = userId)
               (filePermissions db)).

(** A plain [INSERT ... RETURNING].  The table declares [user_id] and
    [file_id] as [notNull] references to [users.id] and [files.id], and no
    constraint over the pair (file_id, user_id); these are the only ways the
    insert fails.  The sequence gives the id and moves on whether the insert
    succeeds or not. *)
Definition createFilePermission (db : Db) (permission : InsertFilePermission.t)
  : Db * Result FilePermission.t :=
  let id := filePermissions_id_seq db in
  let bumped := mkDb (users db) (files db) (filePermissions db) (id + 1) in
  match InsertFilePermission.userId permission with
  | None => (bumped, Err NotNullViolation)
  | Some userId =>
    match getFile db (InsertFilePermission.fileId permission),
          getUser db userId with
    | Some _, Some _ =>
      let newPermission :=
        FilePermission.mk id
          (InsertFilePermission.fileId permission) userId
          (InsertFilePermission.canRead permission)
          (InsertFilePermission.canWrite permission)
          (InsertFilePermission.canShare permission) in
      (mkDb (users db) (files db) (filePermissions db ++ [newPermission])
            (id + 1),
       Ok newPermission)
    | _, _ => (bumped, Err ForeignKeyViolation)
    end
  end.

(** [.set(permission)]: keys that are [undefined] keep the stored value. *)
Definition set_flags (permission : PermissionPatch.t) (row : FilePermission.t)
  : FilePermission.t :=
  FilePermission.mk
    (FilePermission.id row) (FilePermission.fileId row)
    (FilePermission.userId row)
    (default (FilePermission.canRead row) (PermissionPatch.canRead permission))
    (default (FilePermission.canWrite row) (PermissionPatch.canWrite permission))
    (default (FilePermission.canShare row) (PermissionPatch.canShare permission)).

Definition no_values (permission : PermissionPatch.t) : bool :=
  match PermissionPatch.canRead permission,
        PermissionPatch.canWrite permission,
        PermissionPatch.canShare permission with
  | None, None, None => true
  | _, _, _ => false
  end.

(** [UPDATE ... WHERE id = $1 RETURNING]: the only condition is the primary
    key.  An update with nothing to set is an error of the query builder
    and reaches no row. *)
Definition updateFilePermission (db : Db) (id : Z) (permission : PermissionPatch.t)
  : Db * Result (option FilePermission.t) :=
  if no_values permission then (db, Err NoValuesToSet)
  else
    let rows :=
      (λ row, if decide (FilePermission.id row = id)
              then set_flags permission row else row)
        <$> filePermissions db in
    (set_filePermissions db rows,
     Ok (head (filter (λ row, FilePermission.id row = id) rows))).

(** [DELETE ... WHERE id = $1]. *)
Definition deleteFilePermission (db : Db) (id : Z) : Db :=
  set_filePermissions db
    (filter (λ row, FilePermission.id row ≠ id) (filePermissions db)).

(** [DELETE FROM files WHERE id = $1]; [file_permissions.file_id] is declared
    [onDelete: "cascade"]. *)
Definition deleteFile (db : Db) (id : Z) : Db :=
  mkDb (users db)
       (filter (λ f, File.id f ≠ id) (files db))
       (filter (λ row, FilePermission.fileId row ≠ id) (filePermissions db))
       (filePermissions_id_seq db).

(** [DELETE FROM users WHERE id = $1]; [file_permissions.user_id] cascades,
    [files.uploaded_by] is a plain integer and keeps its rows. *)
Definition deleteUser (db : Db) (id : Z) : Db :=
  mkDb (filter (λ u, User.id u ≠ id) (users db))
       (files db)
       (filter (λ row, FilePermission.userId row ≠ id) (filePermissions db))
       (filePermissions_id_seq db).

(** ** server/routes.ts: responses *)

Inductive Body :=
  | StatusText                                  (* res.sendStatus(code) *)
  | Message (message : string)                  (* res.json({ message }) *)
  | FileList (fs : list File.t)
  | PermissionList (ps : list FilePermission.t)
  | Permission (p : option FilePermission.t)    (* undefined: no row came back *)
  | UserList (us : list User.t).

Record Response := mkResponse { status : Z; body : Body }.

Definition sendStatus (code : Z) : Response := mkResponse code StatusText.
Definition json (code : Z) (b : Body) : Response := mkResponse code b.

(** What a middleware does: answer, or call [next()]. *)
Inductive Outcome :=
  | Respond (r : Response)
  | Next.

(** What a route does: answer, or die on a rejected promise. *)
Inductive Reply :=
  | Sent (r : Response)
  | Unhandled.

Definition statusOf (reply : Reply) : option Z :=
  match reply with
  | Sent r => Some (status r)
  | Unhandled => None
  end.

Definition NotFound : Response := json 404 (Message "File not found").
Definition AccessDenied : Response := json 403 (Message "Access denied").
Definition refusal_share : Response :=
  json 403 (Message "You don't have permission to share this file").
Definition refusal_modify : Response :=
  json 403 (Message "You don't have permission to modify sharing settings").

(** ** server/routes.ts: the two middlewares

    [req.user] is [None] when the session is not authenticated. *)

Definition ensureAdmin (user : option User.t) : Outcome :=
  match user with
  | Some u =>
    if User.isAdmin u then Next
    else Respond (json 403 (Message "Admin access required"))
  | None => Respond (json 403 (Message "Admin access required"))
  end.

Definition ensureFileAccess (db : Db) (user : option User.t) (fileId : Z)
  : Outcome :=
  match user with
  | None => Respond (sendStatus 401)
  | Some u =>
    match getFile db fileId with
    | None => Respond NotFound
    | Some file =>
      (* Admin or file owner has full access *)
      if User.isAdmin u || bool_decide (File.uploadedBy file = User.id u)
      then Next
      else
        (* Check user permissions *)
        match getUserFilePermission db fileId (User.id u) with
        | None => Respond AccessDenied
        | Some permission =>
          if negb (FilePermission.canRead permission)
          then Respond AccessDenied
          else Next
        end
    end
  end.

(** ** GET /api/files: the listing filter *)

(** The callback of [files.map]: the file, or [null]. *)
Definition accessibleFile (db : Db) (u : User.t) (file : File.t)
  : option File.t :=
  if User.isAdmin u || bool_decide (File.uploadedBy file = User.id u)
  then Some file
  else
    match getUserFilePermission db (File.id file) (User.id u) with
    | Some permission =>
      if FilePermission.canRead permission then Some file else None
    | None => None
    end.

(** The array of [Promise.all(files.map(...))]. *)
Definition accessibleFiles (db : Db) (u : User.t) (fs : list File.t)
  : list (option File.t) :=
  accessibleFile db u <$> fs.

(** [.filter(Boolean)] on an array of rows and [null]s. *)
Definition filterBoolean {A : Type} (xs : list (option A)) : list A :=
  omap id xs.

Definition filterReadable (db : Db) (u : User.t) (fs : list File.t)
  : list File.t :=
  filterBoolean (accessibleFiles db u fs).

Definition get_files (db : Db) (user : option User.t) : Reply :=
  match user with
  | None => Sent (sendStatus 401)
  | Some u => Sent (json 200 (FileList (filterReadable db u (getFiles db))))
  end.

(** ** DELETE /api/files/:id

    The uploads directory is the set of paths present on disk;
    [fs.unlink] rejects when the path is not there. *)

Definition unlink (disk : gset string) (p : string) : option (gset string) :=
  if decide (p ∈ disk) then Some (disk ∖ {[ p ]}) else None.

Definition delete_file (db : Db) (disk : gset string)
    (user : option User.t) (id : Z) : Db * gset string * Reply :=
  match user with
  | None => (db, disk, Sent (sendStatus 401))
  | Some u =>
    if negb (User.isAdmin u) then (db, disk, Sent (sendStatus 403))
    else
      match getFile db id with
      | None => (db, disk, Sent NotFound)
      | Some file =>
        match unlink disk (File.path file) with
        | None => (db, disk, Unhandled)
        | Some disk' =>
          (deleteFile db (File.id file), disk', Sent (sendStatus 200))
        end
      end
  end.

(** ** File permission routes *)

(** The JSON body of the POST route; an absent key is [None]. *)
Module PermissionBody.
Record t := mk {
  userId : option Z;
  canRead : option bool; canWrite : option bool; canShare : option bool }.
End PermissionBody.

(** GET /api/files/:fileId/permissions *)
Definition get_permissions (db : Db) (user : option User.t) (fileId : Z)
  : Reply :=
  match ensureFileAccess db user fileId with
  | Respond r => Sent r
  | Next => Sent (json 200 (PermissionList (getFilePermissions db fileId)))
  end.

(** POST /api/files/:fileId/permissions *)
Definition post_permission (db : Db) (user : option User.t) (fileId : Z)
    (body : PermissionBody.t) : Db * Reply :=
  match ensureFileAccess db user fileId with
  | Respond r => (db, Sent r)
  | Next =>
    match getFile db fileId, user with
    | None, _ => (db, Sent NotFound)
    | Some _, None => (db, Unhandled)          (* req.user!. on undefined *)
    | Some file, Some u =>
      (* Only file owner or admin can add permissions *)
      let refused :=
        if negb (User.isAdmin u)
           && negb (bool_decide (File.uploadedBy file = User.id u))
        then
          match getUserFilePermission db fileId (User.id u) with
          | Some permission => negb (FilePermission.canShare permission)
          | None => true
          end
        else false in
      if refused
      then (db, Sent refusal_share)
      else
        match createFilePermission db
                (InsertFilePermission.mk fileId
                   (PermissionBody.userId body)
                   (default true (PermissionBody.canRead body))
                   (default false (PermissionBody.canWrite body))
                   (default false (PermissionBody.canShare body))) with
        | (db', Ok permission) =>
          (db', Sent (json 201 (Permission (Some permission))))
        | (db', Err _) =>
          (db', Sent (json 400 (Message "Invalid permission data")))
        end
    end
  end.

(** PATCH /api/files/:fileId/permissions/:permissionId *)
Definition patch_permission (db : Db) (user : option User.t)
    (fileId permissionId : Z) (body : PermissionPatch.t) : Db * Reply :=
  match ensureFileAccess db user fileId with
  | Respond r => (db, Sent r)
  | Next =>
    match getFile db fileId, user with
    | None, _ => (db, Sent NotFound)
    | Some _, None => (db, Unhandled)
    | Some file, Some u =>
      (* Only file owner or admin can modify permissions *)
      if negb (User.isAdmin u)
         && negb (bool_decide (File.uploadedBy file = User.id u))
      then (db, Sent refusal_modify)
      else
        match updateFilePermission db permissionId body with
        | (db', Ok permission) => (db', Sent (json 200 (Permission permission)))
        | (db', Err _) =>
          (db', Sent (json 400 (Message "Invalid permission data")))
        end
    end
  end.

(** DELETE /api/files/:fileId/permissions/:permissionId *)
Definition delete_permission (db : Db) (user : option User.t)
    (fileId permissionId : Z) : Db * Reply :=
  match ensureFileAccess db user fileId with
  | Respond r => (db, Sent r)
  | Next =>
    match getFile db fileId, user with
    | None, _ => (db, Sent NotFound)
    | Some _, None => (db, Unhandled)
    | Some file, Some u =>
      (* Only file owner or admin can delete permissions *)
      if negb (User.isAdmin u)
         && negb (bool_decide (File.uploadedBy file = User.id u))
      then (db, Sent refusal_modify)
      else (deleteFilePermission db permissionId, Sent (sendStatus 200))
    end
  end.

(** ** Admin routes *)

Definition get_users (db : Db) (user : option User.t) : Reply :=
  match ensureAdmin user with
  | Respond r => Sent r
  | Next => Sent (json 200 (UserList (getAllUsers db)))
  end.

Definition delete_user (db : Db) (user : option User.t) (id : Z) : Db * Reply :=
  match ensureAdmin user with
  | Respond r => (db, Sent r)
  | Next => (deleteUser db id, Sent (sendStatus 200))
  end.

(** ** The WebSocket server on /ws

    [wss.clients] is the set of connected sockets, here a finite map from the
    socket's handle to its state.  [sent] is what the server has written to
    the socket with [client.send], oldest first: what that subscriber
    receives. *)

Record Socket := mkSocket { readyState : Z; sent : list string }.

(** The [readyState] constants of the WebSocket interface. *)
Definition CONNECTING : Z := 0.
Definition OPEN : Z := 1.
Definition CLOSING : Z := 2.
Definition CLOSED : Z := 3.

(** The body of [ws.on('message', ...)]. *)
Definition on_message (clients : gmap nat Socket) (message : string)
  : gmap nat Socket :=
  (λ client,
     if decide (readyState client = OPEN)
     then mkSocket (readyState client) (sent client ++ [message])
     else client) <$> clients.

(** ** The server as a whole *)

Record Server := mkServer {
  db : Db;
  disk : gset string;
  clients : gmap nat Socket }.

Inductive Request :=
  | GetFiles
  | DeleteFile (id : Z)
  | GetPermissions (fileId : Z)
  | PostPermission (fileId : Z) (body : PermissionBody.t)
  | PatchPermission (fileId permissionId : Z) (body : PermissionPatch.t)
  | DeletePermission (fileId permissionId : Z)
  | GetUsers
  | DeleteUser (id : Z).

Inductive Event :=
  | Http (user : option User.t) (req : Request)
  | WsConnection (ws : nat)              (* a socket completes its handshake *)
  | WsMessage (ws : nat) (message : string)  (* a client writes to its socket *)
  | WsClosing (ws : nat)                 (* the closing handshake starts *)
  | WsClose (ws : nat).                  (* the socket is gone *)

Definition http (s : Server) (user : option User.t) (req : Request)
  : Server * Reply :=
  match req with
  | GetFiles => (s, get_files (db s) user)
  | DeleteFile id =>
    let '(db', disk', reply) := delete_file (db s) (disk s) user id in
    (mkServer db' disk' (clients s), reply)
  | GetPermissions fileId => (s, get_permissions (db s) user fileId)
  | PostPermission fileId body =>
    let '(db', reply) := post_permission (db s) user fileId body in
    (mkServer db' (disk s) (clients s), reply)
  | PatchPermission fileId permissionId body =>
    let '(db', reply) := patch_permission (db s) user fileId permissionId body in
    (mkServer db' (disk s) (clients s), reply)
  | DeletePermission fileId permissionId =>
    let '(db', reply) := delete_permission (db s) user fileId permissionId in
    (mkServer db' (disk s) (clients s), reply)
  | GetUsers => (s, get_users (db s) user)
  | DeleteUser id =>
    let '(db', reply) := delete_user (db s) user id in
    (mkServer db' (disk s) (clients s), reply)
  end.

Definition step (s : Server) (e : Event) : Server * option Reply :=
  match e with
  | Http user req => let '(s', reply) := http s user req in (s', Some reply)
  | WsConnection ws =>
    match clients s !! ws with
    | Some _ => (s, None)
    | None =>
      (mkServer (db s) (disk s) (<[ws := mkSocket OPEN []]> (clients s)), None)
    end
  | WsMessage ws message =>
    match clients s !! ws with
    | Some _ =>
      (mkServer (db s) (disk s) (on_message (clients s) message), None)
    | None => (s, None)
    end
  | WsClosing ws =>
    (mkServer (db s) (disk s)
       (alter (λ c, mkSocket CLOSING (sent c)) ws (clients s)), None)
  | WsClose ws => (mkServer (db s) (disk s) (delete ws (clients s)), None)
  end.

Fixpoint run (s : Server) (es : list Event) : Server :=
  match es with
  | [] => s
  | e :: es => run (step s e).1 es
  end.

(** The events of clients writing to their sockets, one after the other. *)
Definition writes (ms : list (nat * string)) : list Event :=
  (λ wm, WsMessage wm.1 wm.2) <$> ms.

(** ** client: the share dialog ([ShareDialog.handleAddPermission]) *)

Inductive DialogAction :=
  | Toast (title description : string)
  | Mutate (data : PermissionBody.t).        (* addPermissionMutation.mutate *)

Definition handleAddPermission (users : list User.t) (username : string)
    (currentUser : option User.t) : DialogAction :=
  match head (filter (λ u, User.username u = username) users) with
  | None => Toast "User not found" "Please enter a valid username"
  | Some userToShare =>
    if match currentUser with
       | Some c => bool_decide (User.id userToShare = User.id c)
       | None => false
       end
    then Toast "Invalid operation" "You cannot share with yourself"
    else Mutate (PermissionBody.mk (Some (User.id userToShare))
                   (Some true) (Some false) (Some false))
  end.

(** ** The grant table: what its rows are told apart by *)

Definition ids (db : Db) : list Z := FilePermission.id <$> filePermissions db.

(** The table's only uniqueness constraint, with the sequence ahead of
    every id in use. *)
Definition primary_key_ok (db : Db) : Prop :=
  NoDup (ids db)
  ∧ Forall (λ row, FilePermission.id row < filePermissions_id_seq db)
           (filePermissions db).

Definition pair_of (row : FilePermission.t) : Z * Z :=
  (FilePermission.fileId row, FilePermission.userId row).

(** The invariant the grant table would need for one grant per pair. *)
Definition one_grant_per_pair (db : Db) : Prop :=
  NoDup (pair_of <$> filePermissions db).

Definition grants_for (db : Db) (fileId userId : Z) : list FilePermission.t :=
  filter (λ p, FilePermission.fileId p = fileId
               ∧ FilePermission.userId p = userId)
         (filePermissions db).

Global Instance primary_key_ok_dec db : Decision (primary_key_ok db).
Proof. unfold primary_key_ok. apply _. Defined.

Global Instance one_grant_per_pair_dec db : Decision (one_grant_per_pair db).
Proof. unfold one_grant_per_pair. apply _. Defined.

(** ** Fixtures: a small installation used by the examples below *)

Module Fixture.
Definition alice := User.mk 1 "alice" "pw-a" false.
Definition bob := User.mk 2 "bob" "pw-b" false.
Definition carol := User.mk 3 "carol" "pw-c" false.
Definition root := User.mk 9 "root" "pw-r" true.

(** [report] is alice's upload, [notes] is bob's. *)
Definition report :=
  File.mk 1 "report.pdf" "uploads/a1" 2048 "application/pdf" 1.
Definition notes := File.mk 2 "notes.txt" "uploads/b2" 120 "text/plain" 2.

(** bob may read and re-share [report]; carol may read it; carol may read
    [notes]. *)
Definition bob_on_report := FilePermission.mk 1 1 2 true false true.
Definition carol_on_report := FilePermission.mk 2 1 3 true false false.
Definition carol_on_notes := FilePermission.mk 3 2 3 true false false.

Definition db0 : Db :=
  mkDb [alice; bob; carol; root] [report; notes]
       [bob_on_report; carol_on_report; carol_on_notes] 4.

Definition disk0 : gset string := {[ "uploads/a1"; "uploads/b2" ]}.

(** Two dialogs are listening: sockets 7 and 8. *)
Definition server0 : Server :=
  mkServer db0 disk0
    (<[7%nat := mkSocket OPEN []]> (<[8%nat := mkSocket OPEN []]> ∅)).
End Fixture.

(** ** Referential integrity of the grant table

    [file_permissions.file_id] and [file_permissions.user_id] are declared
    as references: a grant names a stored file and a stored user. *)

Definition references_ok (db : Db) : Prop :=
  Forall (λ row, is_Some (getFile db (FilePermission.fileId row))
                 ∧ is_Some (getUser db (FilePermission.userId row)))
         (filePermissions db).

Global Instance references_ok_dec db : Decision (references_ok db).
Proof. unfold references_ok. apply _. Defined.

(** The part of a grant that says whose it is and on what. *)
Definition target_of (row : FilePermission.t) : Z * Z * Z :=
  (FilePermission.id row, FilePermission.fileId row,
   FilePermission.userId row).

(** The row the POST route asks the store for: the defaults of the [??]. *)
Definition insert_of_body (fileId : Z) (body : PermissionBody.t)
  : InsertFilePermission.t :=
  InsertFilePermission.mk fileId
    (PermissionBody.userId body)
    (default true (PermissionBody.canRead body))
    (default false (PermissionBody.canWrite body))
    (default false (PermissionBody.canShare body)).

(** ** POST /api/files: upload

    [multer] has written the upload to [req.file.path] before the route
    runs.  The sequence behind [files.id] is threaded next to the database.
    [files.size] is an [integer] column, four bytes wide: it is the one value
    of the insert that comes from the request. *)

Module InsertFile.
Record t := mk {
  name : string; path : string; size : Z; mimeType : string; uploadedBy : Z }.
End InsertFile.

(** [req.file] as [multer] fills it in. *)
Module UploadedFile.
Record t := mk {
  originalname : string; path : string; size : Z; mimetype : string }.
End UploadedFile.






(** The file ids in use stay behind their sequence. *)
Definition files_below (db : Db) (files_id_seq : Z) : Prop :=
  Forall (λ f, File.id f < files_id_seq) (files db).

Global Instance files_below_dec db seq : Decision (files_below db seq).
Proof. unfold files_below. apply _. Defined.

(** ** GET /api/files/:id: what is sent for a stored file

    The body of the route once the file row is at hand.  [read] is
    [fs.readFile(path, "utf-8")], [None] when it rejects; [res.sendFile] is
    given the stored path, resolved against the working directory. *)

Definition startsWith (s p : string) : bool := String.prefix p s.

(** The double quote, code 34. *)
Definition quote : string := String (Ascii.ascii_of_nat 34) EmptyString.

Inductive Download :=
  | Content (type content : string)          (* res.type(...).send(content) *)
  | ReadFailed                               (* 500 "Failed to read file" *)
  | SendFile (disposition contentType path : string).

Definition send_file (read : string → option string) (file : File.t)
  : Download :=
  if startsWith (File.mimeType file) "text/"
     || String.eqb (File.mimeType file) "application/json"
  then
    match read (File.path file) with
    | Some content => Content (File.mimeType file) content
    | None => ReadFailed
    end
  else
    let isPreviewable :=
      startsWith (File.mimeType file) "image/"
      || String.eqb (File.mimeType file) "application/pdf" in
    SendFile
      ((if isPreviewable then "inline" else "attachment")
         +:+ "; filename=" +:+ quote +:+ File.name file +:+ quote)
      (File.mimeType file) (File.path file).

(** ** client: the preview dialog ([FilePreview]) *)

Inductive PreviewPane := ImagePane | PdfPane | TextPane | NoPreviewPane.

Definition isImage (file : File.t) : bool :=
  startsWith (File.mimeType file) "image/".
Definition isPDF (file : File.t) : bool :=
  String.eqb (File.mimeType file) "application/pdf".
Definition isText (file : File.t) : bool :=
  startsWith (File.mimeType file) "text/"
  || String.eqb (File.mimeType file) "application/json".

(** The four conditional children of the dialog, in the order written. *)
Definition panes (file : File.t) : list PreviewPane :=
  (if isImage file then [ImagePane] else [])
  ++ (if isPDF file then [PdfPane] else [])
  ++ (if isText file then [TextPane] else [])
  ++ (if negb (isImage file) && negb (isPDF file) && negb (isText file)
      then [NoPreviewPane] else []).

(** ** client: who the share dialog lets manage grants *)

Definition canManagePermissions (currentUser : option User.t) (file : File.t)
  : bool :=
  match currentUser with
  | Some c => User.isAdmin c || bool_decide (File.uploadedBy file = User.id c)
  | None => false
  end.

(** * Properties *)

(** ** Lookups *)

Lemma head_filter_Some {A} (P : A → Prop) `{!∀ x, Decision (P x)}
    (l : list A) (x : A) :
  head (filter P l) = Some x → x ∈ l ∧ P x.
Proof.
  intros Hhd. apply head_Some_elem_of in Hhd.
  by apply list_elem_of_filter in Hhd as [? ?].
Qed.

Lemma head_filter_None {A} (P : A → Prop) `{!∀ x, Decision (P x)}
    (l : list A) :
  head (filter P l) = None ↔ ∀ x, x ∈ l → ¬ P x.
Proof.
  rewrite head_None. split.
  - intros Hnil x Hx HP.
    assert (x ∈ filter P l) as Hin by (apply list_elem_of_filter; done).
    rewrite Hnil in Hin. by apply not_elem_of_nil in Hin.
  - intros Hno. destruct (filter P l) as [|y l'] eqn:E; [done|].
    assert (y ∈ filter P l) as Hin by (rewrite E; left).
    apply list_elem_of_filter in Hin as [HP Hy]. by destruct (Hno y Hy).
Qed.

Lemma getFile_Some db id file :
  getFile db id = Some file → file ∈ files db ∧ File.id file = id.
Proof. intros H. by apply head_filter_Some in H as [? ?]. Qed.

Lemma getUserFilePermission_Some db fileId userId p :
  getUserFilePermission db fileId userId = Some p →
  p ∈ filePermissions db
  ∧ FilePermission.fileId p = fileId ∧ FilePermission.userId p = userId.
Proof. intros H. by apply head_filter_Some in H as [? [? ?]]. Qed.

(** None of the lookups on files or users reads the grants. *)
Lemma getFile_set_filePermissions db ps id :
  getFile (set_filePermissions db ps) id = getFile db id.
Proof. reflexivity. Qed.

(** ** The access gate: [ensureFileAccess] *)

Section AccessGate.
Variables (db : Db) (u : User.t) (fileId : Z).

Lemma ensureFileAccess_admin_or_owner file :
  getFile db fileId = Some file →
  User.isAdmin u = true ∨ File.uploadedBy file = User.id u →
  ensureFileAccess db (Some u) fileId = Next.
Proof.
  intros Hfile Hwho. unfold ensureFileAccess. rewrite Hfile.
  destruct Hwho as [-> | Howner]; [done|].
  rewrite (bool_decide_eq_true_2 _ Howner). by rewrite orb_true_r.
Qed.

(** With the file in place the gate either lets the request through or
    answers "Access denied": nothing else. *)
Lemma ensureFileAccess_existing file :
  getFile db fileId = Some file →
  ensureFileAccess db (Some u) fileId = Next
  ∨ ensureFileAccess db (Some u) fileId = Respond AccessDenied.
Proof.
  intros Hfile. unfold ensureFileAccess. rewrite Hfile.
  destruct (User.isAdmin u || _); [by left|].
  destruct (getUserFilePermission db fileId (User.id u)) as [p|]; [|by right].
  destruct (FilePermission.canRead p); simpl; [by left | by right].
Qed.

End AccessGate.



(** ** Listing: [filterReadable] *)

Lemma accessibleFile_Some db u file kept :
  accessibleFile db u file = Some kept → kept = file.
Proof.
  unfold accessibleFile. intros H.
  repeat (case_match; simplify_eq); done.
Qed.

Lemma filterReadable_cons db u file fs :
  filterReadable db u (file :: fs) =
    match accessibleFile db u file with
    | Some _ => file :: filterReadable db u fs
    | None => filterReadable db u fs
    end.
Proof.
  unfold filterReadable, filterBoolean, accessibleFiles. simpl.
  destruct (accessibleFile db u file) as [kept|] eqn:E; simpl; [|done].
  by rewrite (accessibleFile_Some _ _ _ _ E).
Qed.

Lemma filterReadable_filter db u fs :
  filterReadable db u fs = filter (λ f, is_Some (accessibleFile db u f)) fs.
Proof.
  induction fs as [|file fs IH]; [done|].
  rewrite filterReadable_cons, filter_cons, IH.
  destruct (accessibleFile db u file) eqn:E.
  - by rewrite decide_True.
  - rewrite decide_False; [done|]. by intros [? ?].
Qed.

Lemma elem_of_filterReadable db u fs file :
  file ∈ filterReadable db u fs ↔
    file ∈ fs ∧ accessibleFile db u file = Some file.
Proof.
  rewrite filterReadable_filter, list_elem_of_filter. split.
  - intros [[kept E] Hin]. split; [done|].
    by rewrite E, (accessibleFile_Some _ _ _ _ E).
  - intros [Hin E]. split; [by exists file | done].
Qed.

(** C8.  Filtering a listing for a user twice gives what filtering it once
    gives, and the files that are kept stand in the order they had in the
    input. *)
Theorem filterReadable_idempotent_ordered (db : Db) (u : User.t)
    (fs : list File.t) :
  filterReadable db u (filterReadable db u fs) = filterReadable db u fs
  ∧ filterReadable db u fs `sublist_of` fs.
Proof.
  split.
  - induction fs as [|file fs IH]; [done|].
    rewrite filterReadable_cons.
    destruct (accessibleFile db u file) eqn:E; [|done].
    by rewrite filterReadable_cons, E, IH.
  - rewrite filterReadable_filter. apply sublist_filter.
Qed.

(** ** Admin and owner override *)

(** What the three grant routes do once the actor is an admin or the owner
    of the file in the path. *)
Lemma grant_routes_admin_or_owner db u fileId file :
  getFile db fileId = Some file →
  User.isAdmin u = true ∨ File.uploadedBy file = User.id u →
  (∀ body,
     post_permission db (Some u) fileId body =
       match createFilePermission db
               (InsertFilePermission.mk fileId (PermissionBody.userId body)
                  (default true (PermissionBody.canRead body))
                  (default false (PermissionBody.canWrite body))
                  (default false (PermissionBody.canShare body))) with
       | (db', Ok permission) =>
         (db', Sent (json 201 (Permission (Some permission))))
       | (db', Err _) =>
         (db', Sent (json 400 (Message "Invalid permission data")))
       end)
  ∧ (∀ permissionId body,
       patch_permission db (Some u) fileId permissionId body =
         match updateFilePermission db permissionId body with
         | (db', Ok permission) =>
           (db', Sent (json 200 (Permission permission)))
         | (db', Err _) =>
           (db', Sent (json 400 (Message "Invalid permission data")))
         end)
  ∧ (∀ permissionId,
       delete_permission db (Some u) fileId permissionId =
         (deleteFilePermission db permissionId, Sent (sendStatus 200))).
Proof.
  intros Hfile Hwho.
  pose proof (ensureFileAccess_admin_or_owner db u fileId file Hfile Hwho)
    as Hgate.
  assert (negb (User.isAdmin u)
          && negb (bool_decide (File.uploadedBy file = User.id u)) = false)
    as Hguard.
  { destruct Hwho as [-> | Howner]; [done|].
    rewrite (bool_decide_eq_true_2 _ Howner). by rewrite andb_false_r. }
  split; [|split]; intros;
    unfold post_permission, patch_permission, delete_permission;
    by rewrite Hgate, Hfile, Hguard.
Qed.



(** ** Deleting a file *)

(** C10.  Deleting a file succeeds only for an admin: an authenticated user
    who is not an admin gets 403, whether or not they uploaded the file, and
    then neither the tables nor the uploads directory change. *)
Theorem delete_file_admin_only (db : Db) (disk : gset string) (u : User.t)
    (id : Z) :
  (User.isAdmin u = false →
     delete_file db disk (Some u) id = (db, disk, Sent (sendStatus 403)))
  ∧ (statusOf (delete_file db disk (Some u) id).2 = Some 200 →
     User.isAdmin u = true).
Proof.
  unfold delete_file. destruct (User.isAdmin u); simpl.
  - split; [discriminate | done].
  - split; [done | discriminate].
Qed.

(** alice is refused on her own upload; root's request goes through. *)
Lemma delete_file_admin_only_witness :
  (User.isAdmin Fixture.alice = false
   ∧ getFile Fixture.db0 1 = Some Fixture.report
   ∧ File.uploadedBy Fixture.report = User.id Fixture.alice
   ∧ delete_file Fixture.db0 Fixture.disk0 (Some Fixture.alice) 1
     = (Fixture.db0, Fixture.disk0, Sent (sendStatus 403)))
  ∧ (statusOf (delete_file Fixture.db0 Fixture.disk0 (Some Fixture.root) 1).2
       = Some 200
     ∧ User.isAdmin Fixture.root = true).
Proof.
  split.
  - split; [reflexivity|]. split; [reflexivity|]. split; [reflexivity|].
    exact (proj1 (delete_file_admin_only Fixture.db0 Fixture.disk0
                    Fixture.alice 1) eq_refl).
  - assert (statusOf (delete_file Fixture.db0 Fixture.disk0
                        (Some Fixture.root) 1).2 = Some 200) as Hok
      by (vm_compute; reflexivity).
    split; [exact Hok|].
    exact (proj2 (delete_file_admin_only Fixture.db0 Fixture.disk0
                    Fixture.root 1) Hok).
Defined.

(** ** Updating and deleting a grant: the row is found by its id alone *)



(** ** Who may manage grants *)




(** ** The grant table: keyed by id, not by (file, user) *)

Lemma primary_key_ok_bump db :
  primary_key_ok db →
  primary_key_ok (mkDb (users db) (files db) (filePermissions db)
                       (filePermissions_id_seq db + 1)).
Proof.
  intros [Hnodup Hbelow]. split; [done|]. simpl.
  eapply Forall_impl; [exact Hbelow|]. intros row. simpl. lia.
Qed.

Lemma sequence_fresh db :
  primary_key_ok db → filePermissions_id_seq db ∉ ids db.
Proof.
  intros [_ Hbelow] Hin.
  apply list_elem_of_fmap in Hin as (old & Heq & Hold).
  rewrite Forall_forall in Hbelow. specialize (Hbelow old Hold).
  simpl in Hbelow. lia.
Qed.

Lemma primary_key_ok_append db row :
  primary_key_ok db →
  FilePermission.id row = filePermissions_id_seq db →
  primary_key_ok (mkDb (users db) (files db) (filePermissions db ++ [row])
                       (filePermissions_id_seq db + 1)).
Proof.
  intros Hok Hid. pose proof (sequence_fresh db Hok) as Hfresh.
  destruct Hok as [Hnodup Hbelow]. split.
  - unfold ids in *. simpl. rewrite fmap_app. simpl.
    apply NoDup_app. split; [done|]. split; [|apply NoDup_singleton].
    intros id Hin Hnew. apply list_elem_of_singleton in Hnew as ->.
    by rewrite Hid in Hin.
  - simpl. apply Forall_app_2.
    + eapply Forall_impl; [exact Hbelow|]. intros old. simpl. lia.
    + apply Forall_singleton. lia.
Qed.

Lemma primary_key_ok_create db permission :
  primary_key_ok db → primary_key_ok (createFilePermission db permission).1.
Proof.
  intros Hok. unfold createFilePermission.
  destruct (InsertFilePermission.userId permission) as [userId|];
    [|by apply primary_key_ok_bump].
  destruct (getFile db _); [|by apply primary_key_ok_bump].
  destruct (getUser db userId); [|by apply primary_key_ok_bump].
  simpl. by apply primary_key_ok_append.
Qed.

Lemma primary_key_ok_update db id permission :
  primary_key_ok db → primary_key_ok (updateFilePermission db id permission).1.
Proof.
  intros [Hnodup Hbelow]. unfold updateFilePermission.
  destruct (no_values permission); [done|]. simpl.
  split.
  - unfold ids in *. simpl. rewrite <- list_fmap_compose.
    erewrite list_fmap_ext; [exact Hnodup|].
    intros i row _. simpl. by case_decide.
  - simpl. apply Forall_fmap. eapply Forall_impl; [exact Hbelow|].
    intros row. simpl. by case_decide.
Qed.

Lemma primary_key_ok_filter db (P : FilePermission.t → Prop)
    `{!∀ row, Decision (P row)} us fs :
  primary_key_ok db →
  primary_key_ok
    (mkDb us fs (filter P (filePermissions db)) (filePermissions_id_seq db)).
Proof.
  intros [Hnodup Hbelow]. split; simpl.
  - unfold ids in *. simpl.
    apply (sublist_NoDup _ _ Hnodup), fmap_sublist, sublist_filter.
  - rewrite Forall_forall in Hbelow. apply Forall_forall.
    intros row Hrow. apply list_elem_of_filter in Hrow as [_ Hrow].
    by apply Hbelow.
Qed.

(** Every route leaves the database alone or goes through one storage
    method. *)
Lemma http_db s user req :
  let db' := db (http s user req).1 in
  db' = db s
  ∨ (∃ permission, db' = (createFilePermission (db s) permission).1)
  ∨ (∃ id permission, db' = (updateFilePermission (db s) id permission).1)
  ∨ (∃ id, db' = deleteFilePermission (db s) id)
  ∨ (∃ id, db' = deleteFile (db s) id)
  ∨ (∃ id, db' = deleteUser (db s) id).
Proof.
  destruct req as [|id|fileId|fileId body|fileId permissionId body
                   |fileId permissionId| |id]; simpl; try by left.
  - unfold delete_file.
    destruct user as [u|]; [|by left].
    destruct (User.isAdmin u); simpl; [|by left].
    destruct (getFile (db s) id) as [file|]; [|by left].
    destruct (unlink (disk s) (File.path file)); [|by left].
    simpl. do 4 right. left. by eexists.
  - unfold post_permission.
    destruct (ensureFileAccess (db s) user fileId); [by left|].
    destruct (getFile (db s) fileId) as [file|]; [|by left].
    destruct user as [u|]; [|by left].
    match goal with |- context [if ?refused then _ else _] =>
      destruct refused end; [by left|].
    match goal with |- context [createFilePermission (db s) ?p] =>
      right; left; exists p;
      by destruct (createFilePermission (db s) p) as [? [?|?]] end.
  - unfold patch_permission.
    destruct (ensureFileAccess (db s) user fileId); [by left|].
    destruct (getFile (db s) fileId) as [file|]; [|by left].
    destruct user as [u|]; [|by left].
    match goal with |- context [if ?refused then _ else _] =>
      destruct refused end; [by left|].
    do 2 right. left. exists permissionId, body.
    by destruct (updateFilePermission (db s) permissionId body) as [? [?|?]].
  - unfold delete_permission.
    destruct (ensureFileAccess (db s) user fileId); [by left|].
    destruct (getFile (db s) fileId) as [file|]; [|by left].
    destruct user as [u|]; [|by left].
    match goal with |- context [if ?refused then _ else _] =>
      destruct refused end; [by left|].
    do 3 right. left. by eexists.
  - unfold delete_user. destruct (ensureAdmin user); [by left|].
    do 5 right. by eexists.
Qed.


Lemma primary_key_ok_step s e :
  primary_key_ok (db s) → primary_key_ok (db (step s e).1).
Proof.
  intros Hok. destruct e as [user req|ws|ws message|ws|ws]; simpl;
    try done.
  - destruct (http s user req) as [s' reply] eqn:E. simpl.
    pose proof (http_db s user req) as Hdb. rewrite E in Hdb. simpl in Hdb.
    destruct Hdb as [-> | [[p ->] | [(id & p & ->) | [[id ->] | [[id ->]
                    | [id ->]]]]]].
    + done.
    + by apply primary_key_ok_create.
    + by apply primary_key_ok_update.
    + by apply primary_key_ok_filter.
    + by apply primary_key_ok_filter.
    + by apply primary_key_ok_filter.
  - by destruct (clients s !! ws).
  - by destruct (clients s !! ws).
Qed.

Lemma primary_key_ok_run s es :
  primary_key_ok (db s) → primary_key_ok (db (run s es)).
Proof.
  revert s. induction es as [|e es IH]; intros s Hok; [done|].
  simpl. by apply IH, primary_key_ok_step.
Qed.

(** alice shares her report with bob, who holds a grant on it already: the
    request succeeds and the pair (report, bob) has two rows. *)
Lemma second_grant_duplicates_pair :
  let body := PermissionBody.mk (Some 2) None None None in
  let r := post_permission Fixture.db0 (Some Fixture.alice) 1 body in
  one_grant_per_pair Fixture.db0
  ∧ grants_for Fixture.db0 1 2 = [Fixture.bob_on_report]
  ∧ statusOf r.2 = Some 201
  ∧ grants_for r.1 1 2
    = [Fixture.bob_on_report; FilePermission.mk 4 1 2 true false false]
  ∧ ¬ one_grant_per_pair r.1.
Proof.
  intros body r. split; [|split; [|split; [|split]]].
  - apply (bool_decide_unpack _). by vm_compute.
  - by vm_compute.
  - by vm_compute.
  - by vm_compute.
  - intros Hunique. apply (bool_decide_pack _) in Hunique.
    by vm_compute in Hunique.
Qed.

(** C1, as the code has it.  Grant rows are kept apart by their id alone:
    ids are never shared by two rows, in any state the server reaches.
    Creating a grant succeeds whenever the target user is given and both
    the file and that user exist, whatever rows the pair already has; it
    appends one row under a fresh id, so the pair has one row more than
    before. *)
Theorem grant_rows_keyed_by_id_only (s : Server) (es : list Event)
    (permission : InsertFilePermission.t) :
  primary_key_ok (db s) →
  primary_key_ok (db (run s es))
  ∧ (let r := createFilePermission (db s) permission in
     ((∃ row, r.2 = Ok row) ↔
        ∃ userId, InsertFilePermission.userId permission = Some userId
                  ∧ is_Some (getFile (db s)
                               (InsertFilePermission.fileId permission))
                  ∧ is_Some (getUser (db s) userId))
     ∧ ∀ row, r.2 = Ok row →
         filePermissions r.1 = filePermissions (db s) ++ [row]
         ∧ (FilePermission.id row ∉ ids (db s))
         ∧ FilePermission.fileId row = InsertFilePermission.fileId permission
         ∧ InsertFilePermission.userId permission
           = Some (FilePermission.userId row)
         ∧ length (grants_for r.1 (FilePermission.fileId row)
                               (FilePermission.userId row))
           = S (length (grants_for (db s) (FilePermission.fileId row)
                                          (FilePermission.userId row)))).
Proof.
  intros Hok. split; [by apply primary_key_ok_run|].
  unfold createFilePermission.
  destruct (InsertFilePermission.userId permission) as [userId|]; simpl.
  2: { split; [|by intros row [=]].
       split; [by intros [row [=]] | by intros (userId & [=] & _)]. }
  destruct (getFile (db s) _) as [file|] eqn:Hfile; simpl.
  2: { split; [|by intros row [=]].
       split; [by intros [row [=]]|].
       by intros (? & _ & [? [=]] & _). }
  destruct (getUser (db s) userId) as [target|] eqn:Huser; simpl.
  2: { split; [|by intros row [=]].
       split; [by intros [row [=]]|].
       intros (userId' & [= <-] & _ & [? Hsome]). congruence. }
  split.
  - split; [|by eauto]. intros _. exists userId.
    rewrite Huser. by eauto.
  - intros row [= <-]. simpl.
    split; [done|]. split.
    + by apply sequence_fresh.
    + split; [done|]. split; [done|].
      unfold grants_for. simpl.
      rewrite filter_app, length_app.
      rewrite filter_cons_True by done. simpl. lia.
Qed.

Lemma grant_rows_keyed_by_id_only_witness :
  let share_with_bob :=
    Http (Some Fixture.alice)
         (PostPermission 1 (PermissionBody.mk (Some 2) None None None)) in
  let permission := InsertFilePermission.mk 1 (Some 2) true false false in
  primary_key_ok (db Fixture.server0)
  ∧ primary_key_ok
      (db (run Fixture.server0 [share_with_bob; share_with_bob]))
  ∧ length (grants_for (createFilePermission Fixture.db0 permission).1 1 2)
    = 2%nat.
Proof.
  intros share_with_bob permission.
  assert (primary_key_ok (db Fixture.server0)) as Hok
    by (apply (bool_decide_unpack _); vm_compute; exact I).
  destruct (grant_rows_keyed_by_id_only Fixture.server0
              [share_with_bob; share_with_bob] permission Hok)
    as (Hrun & _ & Hrow).
  split; [exact Hok|]. split; [exact Hrun|].
  destruct (Hrow (FilePermission.mk 4 1 2 true false false) eq_refl)
    as (_ & _ & _ & _ & Hlen).
  exact Hlen.
Defined.

(** ** The real-time channel *)

(** Socket 7 writes a line that has nothing to do with any grant; no
    request has changed the tables; socket 8 is sent that very line. *)
Lemma client_message_is_rebroadcast :
  let s' := (step Fixture.server0 (WsMessage 7%nat "hello from socket 7")).1 in
  db s' = db Fixture.server0
  ∧ sent <$> clients Fixture.server0 !! 8%nat = Some []
  ∧ sent <$> clients s' !! 8%nat = Some ["hello from socket 7"].
Proof. by vm_compute. Qed.

(** C2, as the code has it.  When a connected client writes a message to
    its socket, the server sends that message, unchanged, to every connected
    socket that is OPEN, the sender's included, and to no other socket; the
    set of connected sockets, the tables and the disk stay as they were. *)
Theorem inbound_message_is_relayed (s : Server) (ws : nat) (message : string) :
  is_Some (clients s !! ws) →
  let s' := (step s (WsMessage ws message)).1 in
  db s' = db s ∧ disk s' = disk s
  ∧ ∀ peer,
      match clients s !! peer with
      | Some client =>
        (readyState client = OPEN →
           clients s' !! peer
           = Some (mkSocket OPEN (sent client ++ [message])))
        ∧ (readyState client ≠ OPEN → clients s' !! peer = Some client)
      | None => clients s' !! peer = None
      end.
Proof.
  intros [sender Hsender]. simpl. rewrite Hsender. simpl.
  split; [done|]. split; [done|].
  intros peer. unfold on_message. rewrite lookup_fmap.
  destruct (clients s !! peer) as [client|]; simpl; [|done].
  split; intros Hstate.
  - rewrite decide_True by done. by rewrite Hstate.
  - by rewrite decide_False.
Qed.

Lemma inbound_message_is_relayed_witness :
  let s' := (step Fixture.server0 (WsMessage 7%nat "hello from socket 7")).1 in
  is_Some (clients Fixture.server0 !! 7%nat)
  ∧ clients s' !! 7%nat = Some (mkSocket OPEN ["hello from socket 7"])
  ∧ clients s' !! 8%nat = Some (mkSocket OPEN ["hello from socket 7"])
  ∧ clients s' !! 9%nat = None.
Proof.
  intros s'.
  assert (is_Some (clients Fixture.server0 !! 7%nat)) as Hconnected
    by (exists (mkSocket OPEN []); reflexivity).
  destruct (inbound_message_is_relayed Fixture.server0 7
              "hello from socket 7" Hconnected) as (_ & _ & Hpeers).
  split; [exact Hconnected|].
  split; [exact (proj1 (Hpeers 7%nat) eq_refl)|].
  split; [exact (proj1 (Hpeers 8%nat) eq_refl)|].
  exact (Hpeers 9%nat).
Defined.

(** C5, at a failing input.  alice, the owner, turns on [canWrite] in bob's
    grant on her report while sockets 7 and 8 are connected and OPEN.  The
    update is answered with 200 and is in the table; nothing has been sent
    to either socket. *)
Theorem grant_update_reaches_no_subscriber :
  let update :=
    Http (Some Fixture.alice)
         (PatchPermission 1 1 (PermissionPatch.mk None (Some true) None)) in
  let r := step Fixture.server0 update in
  (statusOf <$> r.2) = Some (Some 200)
  ∧ getUserFilePermission (db r.1) 1 2
    = Some (FilePermission.mk 1 1 2 true true true)
  ∧ clients Fixture.server0 !! 7%nat = Some (mkSocket OPEN [])
  ∧ clients r.1 !! 7%nat = Some (mkSocket OPEN [])
  ∧ clients r.1 !! 8%nat = Some (mkSocket OPEN []).
Proof. by vm_compute. Qed.

(** ** Sharing with oneself *)

(** C4, at a failing input.  root, an admin, and alice, the owner, each
    post a grant on the report for their own user id: both requests are
    answered with 201 and the rows are stored.  Only the share dialog of
    the client turns the same attempt down, before any request is made. *)
Theorem self_grant_is_stored :
  let by_root :=
    post_permission Fixture.db0 (Some Fixture.root) 1
      (PermissionBody.mk (Some (User.id Fixture.root)) None None None) in
  let by_alice :=
    post_permission Fixture.db0 (Some Fixture.alice) 1
      (PermissionBody.mk (Some (User.id Fixture.alice)) None None None) in
  statusOf by_root.2 = Some 201
  ∧ grants_for by_root.1 1 9 = [FilePermission.mk 4 1 9 true false false]
  ∧ statusOf by_alice.2 = Some 201
  ∧ grants_for by_alice.1 1 1 = [FilePermission.mk 4 1 1 true false false]
  ∧ handleAddPermission (users Fixture.db0) "root" (Some Fixture.root)
    = Toast "Invalid operation" "You cannot share with yourself".
Proof. by vm_compute. Qed.

(** * Further properties of the code *)

(** ** The store: what each method leaves alone *)

Lemma set_filePermissions_same db : set_filePermissions db (filePermissions db) = db.
Proof. by destruct db. Qed.

Lemma getFile_same_files db db' id :
  files db' = files db → getFile db' id = getFile db id.
Proof. unfold getFile. by intros ->. Qed.

Lemma getUser_same_users db db' id :
  users db' = users db → getUser db' id = getUser db id.
Proof. unfold getUser. by intros ->. Qed.

Lemma head_filter_narrow {A} (P Q : A → Prop) `{!∀ x, Decision (P x)}
    `{!∀ x, Decision (Q x)} (l : list A) :
  (∀ x, P x → Q x) → head (filter P (filter Q l)) = head (filter P l).
Proof.
  intros Himp. rewrite list_filter_filter. f_equal.
  apply list_filter_iff. intros x. split; [by intros [? _]|].
  intros HP. split; [done | by apply Himp].
Qed.

Lemma getFile_deleteFile_ne db id other :
  other ≠ id → getFile (deleteFile db id) other = getFile db other.
Proof.
  intros Hne. unfold getFile. simpl.
  apply head_filter_narrow. intros f. congruence.
Qed.

Lemma getFile_deleteFile_eq db id : getFile (deleteFile db id) id = None.
Proof.
  unfold getFile. simpl. apply head_filter_None.
  intros f Hf. by apply list_elem_of_filter in Hf as [? _].
Qed.

Lemma getUser_deleteUser_ne db id other :
  other ≠ id → getUser (deleteUser db id) other = getUser db other.
Proof.
  intros Hne. unfold getUser. simpl.
  apply head_filter_narrow. intros u. congruence.
Qed.


(** The rows of [createFilePermission]'s result: the old ones, and at most
    one more. *)
Lemma createFilePermission_tables db permission :
  let db' := (createFilePermission db permission).1 in
  users db' = users db ∧ files db' = files db
  ∧ filePermissions_id_seq db' = filePermissions_id_seq db + 1
  ∧ match (createFilePermission db permission).2 with
    | Ok row => filePermissions db' = filePermissions db ++ [row]
    | Err _ => filePermissions db' = filePermissions db
    end.
Proof.
  unfold createFilePermission.
  destruct (InsertFilePermission.userId permission); [|done].
  destruct (getFile db _); [|done].
  by destruct (getUser db _).
Qed.

Lemma createFilePermission_Ok db permission db' row :
  createFilePermission db permission = (db', Ok row) →
  ∃ file target,
    getFile db (InsertFilePermission.fileId permission) = Some file
    ∧ getUser db (FilePermission.userId row) = Some target
    ∧ InsertFilePermission.userId permission
      = Some (FilePermission.userId row)
    ∧ row = FilePermission.mk (filePermissions_id_seq db)
              (InsertFilePermission.fileId permission)
              (FilePermission.userId row)
              (InsertFilePermission.canRead permission)
              (InsertFilePermission.canWrite permission)
              (InsertFilePermission.canShare permission).
Proof.
  unfold createFilePermission.
  destruct (InsertFilePermission.userId permission) as [userId|]; [|done].
  destruct (getFile db _) as [file|]; [|done].
  destruct (getUser db userId) as [target|] eqn:Huser; [|done].
  intros [= <- <-]. simpl. by exists file, target.
Qed.

Lemma updateFilePermission_tables db id permission :
  let db' := (updateFilePermission db id permission).1 in
  users db' = users db ∧ files db' = files db
  ∧ filePermissions_id_seq db' = filePermissions_id_seq db
  ∧ target_of <$> filePermissions db' = target_of <$> filePermissions db.
Proof.
  unfold updateFilePermission. destruct (no_values permission); [done|].
  simpl. do 3 (split; [done|]).
  rewrite <- list_fmap_compose. apply list_fmap_ext.
  intros i row _. simpl. by case_decide.
Qed.

(** ** Referential integrity is kept *)

Lemma references_ok_rows db db' :
  users db' = users db → files db' = files db →
  (∀ row', row' ∈ filePermissions db' →
     ∃ row, row ∈ filePermissions db
            ∧ FilePermission.fileId row = FilePermission.fileId row'
            ∧ FilePermission.userId row = FilePermission.userId row') →
  references_ok db → references_ok db'.
Proof.
  unfold references_ok. rewrite !Forall_forall.
  intros Hu Hf Hrows Hok row' Hrow'.
  destruct (Hrows row' Hrow') as (row & Hrow & Hfile & Huser).
  rewrite (getFile_same_files db db') by done.
  rewrite (getUser_same_users db db') by done.
  rewrite <- Hfile, <- Huser. by apply Hok.
Qed.

Lemma references_ok_create db permission :
  references_ok db → references_ok (createFilePermission db permission).1.
Proof.
  intros Hok.
  destruct (createFilePermission_tables db permission)
    as (Hu & Hf & _ & Hrows).
  destruct (createFilePermission db permission) as [db' [row|e]] eqn:E;
    simpl in *.
  - apply createFilePermission_Ok in E
      as (file & target & Hfile & Huser & _ & Hrow).
    unfold references_ok in *. rewrite Hrows. apply Forall_app_2.
    + eapply Forall_impl; [exact Hok|]. intros old [? ?].
      by rewrite (getFile_same_files db db'), (getUser_same_users db db').
    + apply Forall_singleton.
      rewrite (getFile_same_files db db'), (getUser_same_users db db')
        by done.
      rewrite Huser. split; [|by eauto].
      rewrite Hrow. simpl. rewrite Hfile. by eauto.
  - apply (references_ok_rows db db'); try done.
    intros row' Hrow'. rewrite Hrows in Hrow'. by exists row'.
Qed.

Lemma references_ok_update db id permission :
  references_ok db → references_ok (updateFilePermission db id permission).1.
Proof.
  destruct (updateFilePermission_tables db id permission)
    as (Hu & Hf & _ & Hrows).
  apply references_ok_rows; try done.
  intros row' Hrow'.
  assert (target_of row' ∈ target_of <$> filePermissions db) as Hin.
  { rewrite <- Hrows. apply list_elem_of_fmap. by exists row'. }
  apply list_elem_of_fmap in Hin as (row & Heq & Hrow).
  exists row. unfold target_of in Heq. by simplify_eq.
Qed.

Lemma references_ok_deleteFile db id :
  references_ok db → references_ok (deleteFile db id).
Proof.
  unfold references_ok. rewrite !Forall_forall. intros Hok row Hrow.
  simpl in Hrow. apply list_elem_of_filter in Hrow as [Hne Hrow].
  rewrite getFile_deleteFile_ne by done.
  rewrite (getUser_same_users db) by done. by apply Hok.
Qed.

Lemma references_ok_deleteUser db id :
  references_ok db → references_ok (deleteUser db id).
Proof.
  unfold references_ok. rewrite !Forall_forall. intros Hok row Hrow.
  simpl in Hrow. apply list_elem_of_filter in Hrow as [Hne Hrow].
  rewrite getUser_deleteUser_ne by done.
  rewrite (getFile_same_files db) by done. by apply Hok.
Qed.

Lemma references_ok_step s e :
  references_ok (db s) → references_ok (db (step s e).1).
Proof.
  intros Hok. destruct e as [user req|ws|ws message|ws|ws]; simpl;
    try done.
  - destruct (http s user req) as [s' reply] eqn:E. simpl.
    pose proof (http_db s user req) as Hdb. rewrite E in Hdb. simpl in Hdb.
    destruct Hdb as [-> | [[p ->] | [(id & p & ->) | [[id ->] | [[id ->]
                    | [id ->]]]]]].
    + done.
    + by apply references_ok_create.
    + by apply references_ok_update.
    + apply (references_ok_rows (db s)); try done.
      intros row' Hrow'. simpl in Hrow'.
      apply list_elem_of_filter in Hrow' as [_ Hrow']. by exists row'.
    + by apply references_ok_deleteFile.
    + by apply references_ok_deleteUser.
  - by destruct (clients s !! ws).
  - by destruct (clients s !! ws).
Qed.

(** X1.  Every grant names a stored file and a stored user, and keeps doing
    so through any sequence of requests and socket events: deleting a file
    or a user takes their grants along, and a grant is only created for a
    file and a user that are there. *)
Theorem references_ok_run (s : Server) (es : list Event) :
  references_ok (db s) → references_ok (db (run s es)).
Proof.
  revert s. induction es as [|e es IH]; intros s Hok; [done|].
  simpl. by apply IH, references_ok_step.
Qed.

(** root deletes bob, is turned down by the store when granting to the
    deleted bob, then deletes alice's report; bob's grant and the report's
    grants go with them. *)
Lemma references_ok_run_witness :
  let es := [Http (Some Fixture.root) (DeleteUser 2);
             Http (Some Fixture.root)
                  (PostPermission 2 (PermissionBody.mk (Some 2) None None None));
             Http (Some Fixture.root) (DeleteFile 1)] in
  references_ok (db Fixture.server0)
  ∧ references_ok (db (run Fixture.server0 es))
  ∧ filePermissions (db (run Fixture.server0 es)) = [Fixture.carol_on_notes].
Proof.
  intros es.
  assert (references_ok (db Fixture.server0)) as Hok
    by (apply (bool_decide_unpack _); vm_compute; exact I).
  split; [exact Hok|].
  split; [exact (references_ok_run Fixture.server0 es Hok)|].
  vm_compute. reflexivity.
Defined.

(** ** A grant keeps its id, its file and its user *)

Lemma step_rows s e :
  let db' := db (step s e).1 in
  filePermissions_id_seq (db s) ≤ filePermissions_id_seq db'
  ∧ ∀ row', row' ∈ filePermissions db' →
      FilePermission.id row' = filePermissions_id_seq (db s)
      ∨ ∃ row, row ∈ filePermissions (db s) ∧ target_of row = target_of row'.
Proof.
  assert (∀ d : Db,
            filePermissions_id_seq d ≤ filePermissions_id_seq d
            ∧ ∀ row', row' ∈ filePermissions d →
                FilePermission.id row' = filePermissions_id_seq d
                ∨ ∃ row, row ∈ filePermissions d
                         ∧ target_of row = target_of row') as Hsame.
  { intros d. split; [lia|]. intros row' ?. right. by exists row'. }
  assert (∀ (P : FilePermission.t → Prop) `{!∀ x, Decision (P x)} row',
            row' ∈ filter P (filePermissions (db s)) →
            FilePermission.id row' = filePermissions_id_seq (db s)
            ∨ ∃ row, row ∈ filePermissions (db s)
                     ∧ target_of row = target_of row') as Hfilter.
  { intros P ? row' Hrow'. apply list_elem_of_filter in Hrow' as [_ ?].
    right. by exists row'. }
  destruct e as [user req|ws|ws message|ws|ws]; simpl;
    try (by apply Hsame).
  - destruct (http s user req) as [s' reply] eqn:E. simpl.
    pose proof (http_db s user req) as Hdb. rewrite E in Hdb. simpl in Hdb.
    destruct Hdb as [-> | [[p ->] | [(id & p & ->) | [[id ->] | [[id ->]
                    | [id ->]]]]]].
    + by apply Hsame.
    + destruct (createFilePermission_tables (db s) p)
        as (_ & _ & Hseq & Hrows).
      split; [lia|]. intros row' Hrow'.
      destruct (createFilePermission (db s) p) as [db' [new|err]] eqn:Ec;
        simpl in *; rewrite Hrows in Hrow'.
      * apply elem_of_app in Hrow' as [Hold | Hnew].
        { right. by exists row'. }
        apply list_elem_of_singleton in Hnew as ->. left.
        apply createFilePermission_Ok in Ec as (_ & _ & _ & _ & _ & ->).
        done.
      * right. by exists row'.
    + destruct (updateFilePermission_tables (db s) id p)
        as (_ & _ & Hseq & Hrows).
      split; [lia|]. intros row' Hrow'. right.
      assert (target_of row' ∈ target_of <$> filePermissions (db s)) as Hin.
      { rewrite <- Hrows. apply list_elem_of_fmap. by exists row'. }
      apply list_elem_of_fmap in Hin as (row & Heq & Hrow). by exists row.
    + split; [simpl; lia|]. simpl. by apply Hfilter.
    + split; [simpl; lia|]. simpl. by apply Hfilter.
    + split; [simpl; lia|]. simpl. by apply Hfilter.
  - destruct (clients s !! ws); by apply Hsame.
  - destruct (clients s !! ws); by apply Hsame.
Qed.

(** X2.  Through any sequence of requests and socket events the id sequence
    never goes back, and a grant whose id had been handed out before is one
    of the earlier grants with the same id, file and user: no request moves
    a grant to another file or user, and no id is used twice. *)
Theorem grants_keep_their_target (s : Server) (es : list Event)
    (row' : FilePermission.t) :
  row' ∈ filePermissions (db (run s es)) →
  FilePermission.id row' < filePermissions_id_seq (db s) →
  filePermissions_id_seq (db s) ≤ filePermissions_id_seq (db (run s es))
  ∧ ∃ row, row ∈ filePermissions (db s) ∧ target_of row = target_of row'.
Proof.
  revert s. induction es as [|e es IH]; intros s Hrow' Hold.
  { split; [done|]. by exists row'. }
  simpl in *. destruct (step_rows s e) as [Hseq Hrows].
  destruct (IH (step s e).1 Hrow') as [Hseq' (mid & Hmid & Htarget)]; [lia|].
  split; [lia|].
  destruct (Hrows mid Hmid) as [Hnew | (row & Hrow & Hsame)].
  - assert (FilePermission.id mid = FilePermission.id row') as Hid
      by (unfold target_of in Htarget; by simplify_eq).
    lia.
  - exists row. split; [done|]. by rewrite Hsame.
Qed.

(** alice rewrites all flags of bob's grant, removes carol's, and shares
    with carol anew: bob's row is still bob's on the report, and carol's new
    grant has a new id. *)
Lemma grants_keep_their_target_witness :
  let es := [Http (Some Fixture.alice)
               (PatchPermission 1 1
                  (PermissionPatch.mk (Some false) (Some true) (Some false)));
             Http (Some Fixture.alice) (DeletePermission 1 2);
             Http (Some Fixture.alice)
               (PostPermission 1 (PermissionBody.mk (Some 3) None None None))] in
  let bob_now := FilePermission.mk 1 1 2 false true false in
  filePermissions (db (run Fixture.server0 es))
  = [bob_now; Fixture.carol_on_notes;
     FilePermission.mk 4 1 3 true false false]
  ∧ ∃ row, row ∈ filePermissions (db Fixture.server0)
           ∧ target_of row = target_of bob_now.
Proof.
  intros es bob_now.
  assert (filePermissions (db (run Fixture.server0 es))
          = [bob_now; Fixture.carol_on_notes;
             FilePermission.mk 4 1 3 true false false]) as Hrows
    by (vm_compute; reflexivity).
  split; [exact Hrows|].
  refine (proj2 (grants_keep_their_target Fixture.server0 es bob_now _ _)).
  - rewrite Hrows. left.
  - vm_compute. reflexivity.
Defined.

(** ** The grant routes, end to end *)

Lemma ensureFileAccess_Respond db user fileId r :
  ensureFileAccess db user fileId = Respond r →
  r = sendStatus 401 ∨ r = NotFound ∨ r = AccessDenied.
Proof.
  unfold ensureFileAccess. intros Hr.
  repeat (case_match; simplify_eq); auto.
Qed.

(** POST either stops before the store, with 401, 403 or 404 and the
    database as it was, or answers with what the insert gave. *)
Lemma post_permission_cases db user fileId body :
  let r := post_permission db user fileId body in
  (r.1 = db
   ∧ (r.2 = Unhandled
      ∨ ∃ resp, r.2 = Sent resp
                ∧ (status resp = 401 ∨ status resp = 403
                   ∨ status resp = 404)))
  ∨ (is_Some (getFile db fileId)
     ∧ r = match createFilePermission db (insert_of_body fileId body) with
           | (db', Ok permission) =>
             (db', Sent (json 201 (Permission (Some permission))))
           | (db', Err _) =>
             (db', Sent (json 400 (Message "Invalid permission data")))
           end).
Proof.
  unfold post_permission.
  destruct (ensureFileAccess db user fileId) as [resp|] eqn:Hgate.
  { left. split; [done|]. right. exists resp. split; [done|].
    apply ensureFileAccess_Respond in Hgate as [-> | [-> | ->]];
      simpl; auto. }
  destruct (getFile db fileId) as [file|]; simpl.
  2: { left. split; [done|]. right. eexists. split; [done|].
       simpl. auto. }
  destruct user as [u|]; [|left; split; [done | by left]].
  match goal with |- context [if ?refused then _ else _] =>
    destruct refused end.
  - left. split; [done|]. right. eexists. split; [done|]. simpl. auto.
  - right. split; [by eauto|]. done.
Qed.

Lemma post_permission_created db user fileId body :
  statusOf (post_permission db user fileId body).2 = Some 201 →
  ∃ row,
    createFilePermission db (insert_of_body fileId body)
    = ((post_permission db user fileId body).1, Ok row)
    ∧ (post_permission db user fileId body).2
      = Sent (json 201 (Permission (Some row))).
Proof.
  intros Hstatus.
  destruct (post_permission_cases db user fileId body)
    as [[_ Hstop] | [_ Hrun]].
  - destruct Hstop as [Hun | (resp & Hresp & Hin)].
    + by rewrite Hun in Hstatus.
    + rewrite Hresp in Hstatus. simpl in Hstatus.
      injection Hstatus as Hs. lia.
  - rewrite Hrun in *.
    destruct (createFilePermission db _) as [db' [row|e]]; [|done].
    by exists row.
Qed.

Lemma head_filter_snoc_None {A} (P : A → Prop) `{!∀ x, Decision (P x)}
    (l : list A) (x : A) :
  filter P l = [] → P x → head (filter P (l ++ [x])) = Some x.
Proof.
  intros Hnil HP. rewrite filter_app, Hnil. simpl.
  by rewrite filter_cons_True.
Qed.



(** X3.  Sharing works: when a POST is answered 201 for a user who had no
    grant on the file, the stored grant is that user's grant on the file
    with the flags of the body ([canRead] unless the body says otherwise, no
    [canWrite], no [canShare]), and with [canRead] the user now passes the
    access gate of the file. *)
Theorem new_grant_gives_access (db : Db) (actor : option User.t)
    (fileId : Z) (body : PermissionBody.t) (v : User.t) :
  statusOf (post_permission db actor fileId body).2 = Some 201 →
  PermissionBody.userId body = Some (User.id v) →
  grants_for db fileId (User.id v) = [] →
  let db' := (post_permission db actor fileId body).1 in
  getUserFilePermission db' fileId (User.id v)
  = Some (FilePermission.mk (filePermissions_id_seq db) fileId (User.id v)
            (default true (PermissionBody.canRead body))
            (default false (PermissionBody.canWrite body))
            (default false (PermissionBody.canShare body)))
  ∧ (PermissionBody.canRead body ≠ Some false →
     ensureFileAccess db' (Some v) fileId = Next).
Proof.
  intros Hstatus Huser Hnone db'.
  destruct (post_permission_created db actor fileId body Hstatus)
    as (row & Hcreate & _).
  fold db' in Hcreate.
  pose proof (createFilePermission_tables db (insert_of_body fileId body))
    as (_ & Hfiles & _ & Hrows).
  rewrite Hcreate in Hfiles, Hrows. simpl in Hfiles, Hrows.
  apply createFilePermission_Ok in Hcreate
    as (file & _ & Hfile & _ & Htarget & Hrow).
  simpl in Htarget, Hrow, Hfile. rewrite Huser in Htarget.
  injection Htarget as Htarget. rewrite <- Htarget in Hrow.
  assert (getUserFilePermission db' fileId (User.id v) = Some row) as Hget.
  { unfold getUserFilePermission. rewrite Hrows.
    apply head_filter_snoc_None; [exact Hnone|]. by rewrite Hrow. }
  split; [by rewrite Hget, Hrow|].
  intros Hread. unfold ensureFileAccess.
  rewrite (getFile_same_files db db') by done. rewrite Hfile.
  destruct (User.isAdmin v || _); [done|].
  rewrite Hget, Hrow. simpl.
  by destruct (PermissionBody.canRead body) as [[]|].
Qed.

(** bob shares his notes with alice, who could not open them before. *)
Lemma new_grant_gives_access_witness :
  let body := PermissionBody.mk (Some 1) None None None in
  let db' := (post_permission Fixture.db0 (Some Fixture.bob) 2 body).1 in
  ensureFileAccess Fixture.db0 (Some Fixture.alice) 2 = Respond AccessDenied
  ∧ getUserFilePermission db' 2 1
    = Some (FilePermission.mk 4 2 1 true false false)
  ∧ ensureFileAccess db' (Some Fixture.alice) 2 = Next.
Proof.
  intros body db'.
  destruct (new_grant_gives_access Fixture.db0 (Some Fixture.bob) 2 body
              Fixture.alice eq_refl eq_refl eq_refl) as [Hrow Hgate].
  split; [reflexivity|]. split; [exact Hrow|].
  apply Hgate. discriminate.
Defined.



(** X5.  The store is asked for a row only by an actor POST lets through,
    and a POST that is not answered 201 stores nothing: users, files and
    grants are as they were.  For an admin or the owner of an existing file
    the answer is 400 exactly when the body names no user or a user that is
    not stored. *)
Theorem failed_share_stores_nothing (db : Db) (user : option User.t)
    (fileId : Z) (body : PermissionBody.t) :
  let r := post_permission db user fileId body in
  (statusOf r.2 ≠ Some 201 →
     users r.1 = users db ∧ files r.1 = files db
     ∧ filePermissions r.1 = filePermissions db)
  ∧ (∀ u file,
       user = Some u → getFile db fileId = Some file →
       User.isAdmin u = true ∨ File.uploadedBy file = User.id u →
       (statusOf r.2 = Some 400 ↔
          PermissionBody.userId body = None
          ∨ ∃ t, PermissionBody.userId body = Some t ∧ getUser db t = None)).
Proof.
  intros r. subst r. split.
  - intros Hstatus.
    destruct (post_permission_cases db user fileId body)
      as [[-> _] | [_ Hrun]]; [done|].
    pose proof (createFilePermission_tables db (insert_of_body fileId body))
      as (Hu & Hf & _ & Hrows).
    rewrite Hrun in *.
    destruct (createFilePermission db _) as [db' [row|e]]; [done|].
    done.
  - intros u file -> Hfile Hwho.
    destruct (grant_routes_admin_or_owner db u fileId file Hfile Hwho)
      as (Hpost & _). rewrite Hpost.
    unfold createFilePermission. simpl. rewrite Hfile.
    destruct (PermissionBody.userId body) as [t|]; simpl.
    + destruct (getUser db t) as [target|] eqn:Ht; simpl.
      * split; [done|]. intros [? | (t' & [= <-] & ?)]; congruence.
      * split; [|done]. intros _. right. by exists t.
    + split; [|done]. intros _. by left.
Qed.

(** root shares the report with user 5, who does not exist. *)
Lemma failed_share_stores_nothing_witness :
  let r := post_permission Fixture.db0 (Some Fixture.root) 1
             (PermissionBody.mk (Some 5) None None None) in
  statusOf r.2 = Some 400
  ∧ filePermissions r.1 = filePermissions Fixture.db0.
Proof.
  intros r.
  destruct (failed_share_stores_nothing Fixture.db0 (Some Fixture.root) 1
              (PermissionBody.mk (Some 5) None None None)) as [Hkeep Hwhen].
  assert (statusOf r.2 = Some 400) as Hstatus.
  { apply (Hwhen Fixture.root Fixture.report eq_refl eq_refl
             (or_introl eq_refl)).
    right. exists 5. split; reflexivity. }
  split; [exact Hstatus|].
  apply Hkeep. fold r. rewrite Hstatus. discriminate.
Defined.

Lemma filter_ids_absent (rows : list FilePermission.t) (id : Z) :
  id ∉ FilePermission.id <$> rows →
  filter (λ row, FilePermission.id row ≠ id) rows = rows
  ∧ filter (λ row, FilePermission.id row = id) rows = []
  ∧ ∀ f : FilePermission.t → FilePermission.t,
      (λ row, if decide (FilePermission.id row = id) then f row else row)
        <$> rows = rows.
Proof.
  induction rows as [|row rows IH]; [done|]. simpl. intros Hnot.
  apply not_elem_of_cons in Hnot as [Hne Hnot].
  destruct (IH Hnot) as (Hkeep & Hnone & Hmap).
  split; [|split].
  - rewrite filter_cons_True by done. by rewrite Hkeep.
  - rewrite filter_cons_False by done. done.
  - intros f. rewrite decide_False by done. by rewrite Hmap.
Qed.



Lemma filter_swap {A} (P Q : A → Prop) `{!∀ x, Decision (P x)}
    `{!∀ x, Decision (Q x)} (l : list A) :
  filter P (filter Q l) = filter Q (filter P l).
Proof.
  rewrite !list_filter_filter. apply list_filter_iff. intros x. tauto.
Qed.

(** X7.  Revoking works when the pair has one grant: after an admin or the
    owner deletes the only grant a user holds on a file, that user, unless
    an admin or the owner, is answered "Access denied" at the gate of the
    file, and the file is gone from that user's listing. *)
Theorem revoked_grant_ends_access (db : Db) (actor v : User.t) (fileId : Z)
    (file : File.t) (row : FilePermission.t) :
  getFile db fileId = Some file →
  User.isAdmin actor = true ∨ File.uploadedBy file = User.id actor →
  grants_for db fileId (User.id v) = [row] →
  User.isAdmin v = false →
  File.uploadedBy file ≠ User.id v →
  let db' :=
    (delete_permission db (Some actor) fileId (FilePermission.id row)).1 in
  ensureFileAccess db' (Some v) fileId = Respond AccessDenied
  ∧ ∀ fs, file ∉ filterReadable db' v fs.
Proof.
  intros Hfile Hwho Hone Hadmin Howner db'.
  destruct (grant_routes_admin_or_owner db actor fileId file Hfile Hwho)
    as (_ & _ & Hdelete).
  subst db'. rewrite Hdelete. simpl.
  assert (getUserFilePermission
            (deleteFilePermission db (FilePermission.id row))
            fileId (User.id v) = None) as Hgone.
  { unfold getUserFilePermission. simpl. rewrite filter_swap.
    unfold grants_for in Hone. rewrite Hone.
    by rewrite filter_cons_False by (intros Hne; by apply Hne). }
  split.
  - unfold ensureFileAccess.
    rewrite (getFile_same_files db) by done. rewrite Hfile, Hadmin.
    rewrite bool_decide_eq_false_2 by done. simpl. by rewrite Hgone.
  - intros fs Hin. apply elem_of_filterReadable in Hin as [_ Hkept].
    unfold accessibleFile in Hkept. rewrite Hadmin in Hkept.
    rewrite bool_decide_eq_false_2 in Hkept by done. simpl in Hkept.
    apply getFile_Some in Hfile as [_ Hid]. rewrite Hid in Hkept.
    by rewrite Hgone in Hkept.
Qed.

(** alice takes carol's grant on the report back. *)
Lemma revoked_grant_ends_access_witness :
  let db' := (delete_permission Fixture.db0 (Some Fixture.alice) 1 2).1 in
  ensureFileAccess Fixture.db0 (Some Fixture.carol) 1 = Next
  ∧ ensureFileAccess db' (Some Fixture.carol) 1 = Respond AccessDenied
  ∧ Fixture.report ∉ filterReadable db' Fixture.carol (getFiles db').
Proof.
  intros db'.
  assert (File.uploadedBy Fixture.report ≠ User.id Fixture.carol) as Hnot
    by discriminate.
  destruct (revoked_grant_ends_access Fixture.db0 Fixture.alice
              Fixture.carol 1 Fixture.report Fixture.carol_on_report
              eq_refl (or_intror eq_refl) eq_refl eq_refl Hnot)
    as [Hgate Hlist].
  split; [reflexivity|]. split; [exact Hgate | exact (Hlist _)].
Defined.

Lemma set_flags_twice body row :
  set_flags body (set_flags body row) = set_flags body row.
Proof.
  unfold set_flags. simpl.
  by destruct (PermissionPatch.canRead body),
              (PermissionPatch.canWrite body),
              (PermissionPatch.canShare body).
Qed.

Lemma filter_unique_id (rows : list FilePermission.t) (row : FilePermission.t)
    (f : FilePermission.t → FilePermission.t) :
  (∀ r, FilePermission.id (f r) = FilePermission.id r) →
  NoDup (FilePermission.id <$> rows) → row ∈ rows →
  filter (λ r, FilePermission.id r = FilePermission.id row) (f <$> rows)
  = [f row].
Proof.
  intros Hid. induction rows as [|r rows IH]; intros Hnodup Hin.
  { by apply elem_of_nil in Hin. }
  simpl in Hnodup. apply NoDup_cons in Hnodup as [Hfresh Hnodup].
  apply elem_of_cons in Hin as [<- | Hin]; simpl.
  - rewrite filter_cons_True by apply Hid. f_equal.
    assert (FilePermission.id row ∉ FilePermission.id <$> (f <$> rows))
      as Hfresh'.
    { rewrite <- list_fmap_compose.
      erewrite list_fmap_ext; [exact Hfresh|]. intros i r _. apply Hid. }
    destruct (filter_ids_absent (f <$> rows) _ Hfresh') as (_ & Hnone & _).
    exact Hnone.
  - rewrite filter_cons_False; [by apply IH|].
    rewrite Hid. intros Heq. apply Hfresh. rewrite Heq.
    apply list_elem_of_fmap. by exists row.
Qed.

(** X8.  PATCH answers with the row as it now stands and is idempotent.  With
    ids unique, an admin or the owner updating an existing grant gets 200
    and the row with the flags of the body written over its own, same id,
    file and user; every other row is untouched; sending the same request
    again gives the same database and the same answer. *)
Theorem patch_returns_updated_row (db : Db) (u : User.t) (fileId : Z)
    (file : File.t) (row : FilePermission.t) (body : PermissionPatch.t) :
  primary_key_ok db →
  getFile db fileId = Some file →
  User.isAdmin u = true ∨ File.uploadedBy file = User.id u →
  row ∈ filePermissions db →
  no_values body = false →
  let r := patch_permission db (Some u) fileId (FilePermission.id row) body in
  r.2 = Sent (json 200 (Permission (Some (set_flags body row))))
  ∧ target_of (set_flags body row) = target_of row
  ∧ (∀ other, other ∈ filePermissions db →
       FilePermission.id other ≠ FilePermission.id row →
       other ∈ filePermissions r.1)
  ∧ patch_permission r.1 (Some u) fileId (FilePermission.id row) body = r.
Proof.
  intros [Hnodup _] Hfile Hwho Hrow Hbody r.
  destruct (grant_routes_admin_or_owner db u fileId file Hfile Hwho)
    as (_ & Hpatch & _).
  set (f := λ row' : FilePermission.t,
              if decide (FilePermission.id row' = FilePermission.id row)
              then set_flags body row' else row').
  assert (∀ r0, FilePermission.id (f r0) = FilePermission.id r0) as Hid.
  { intros r0. unfold f. by case_decide. }
  assert (f row = set_flags body row) as Hfrow.
  { unfold f. by rewrite decide_True. }
  assert (∀ rows row0,
            NoDup (FilePermission.id <$> rows) → row0 ∈ rows →
            FilePermission.id row0 = FilePermission.id row →
            updateFilePermission (set_filePermissions db rows)
              (FilePermission.id row) body
            = (set_filePermissions db (f <$> rows),
               Ok (Some (set_flags body row0)))) as Hupdate.
  { intros rows row0 Hnd Hin Hsame. unfold updateFilePermission.
    rewrite Hbody. simpl. fold f. rewrite <- Hsame.
    rewrite (filter_unique_id rows row0 f Hid Hnd Hin).
    unfold f. by rewrite decide_True. }
  assert (r = (set_filePermissions db (f <$> filePermissions db),
               Sent (json 200 (Permission (Some (set_flags body row))))))
    as Hr.
  { subst r. rewrite Hpatch.
    rewrite <- (set_filePermissions_same db) at 1.
    by rewrite (Hupdate _ row Hnodup Hrow). }
  rewrite Hr. simpl. split; [done|]. split; [done|]. split.
  - intros other Hother Hne. apply list_elem_of_fmap. exists other.
    split; [|done]. unfold f. by rewrite decide_False.
  - assert (getFile (set_filePermissions db (f <$> filePermissions db))
              fileId = Some file) as Hfile' by done.
    destruct (grant_routes_admin_or_owner _ u fileId file Hfile' Hwho)
      as (_ & Hpatch' & _).
    rewrite Hpatch'.
    rewrite (Hupdate (f <$> filePermissions db) (set_flags body row)).
    + assert (f <$> (f <$> filePermissions db) = f <$> filePermissions db)
        as Hff.
      { rewrite <- list_fmap_compose. apply list_fmap_ext.
        intros i r0 _. simpl. unfold f.
        destruct (decide (FilePermission.id r0 = FilePermission.id row)).
        - rewrite decide_True by done. apply set_flags_twice.
        - by rewrite decide_False. }
      by rewrite set_flags_twice, Hff.
    + rewrite <- list_fmap_compose.
      erewrite list_fmap_ext; [exact Hnodup|]. intros i r0 _. apply Hid.
    + apply list_elem_of_fmap. exists row. by rewrite Hfrow.
    + done.
Qed.

(** alice lets bob write the report, twice. *)
Lemma patch_returns_updated_row_witness :
  let body := PermissionPatch.mk None (Some true) None in
  let r := patch_permission Fixture.db0 (Some Fixture.alice) 1 1 body in
  r.2 = Sent (json 200 (Permission
                 (Some (FilePermission.mk 1 1 2 true true true))))
  ∧ patch_permission r.1 (Some Fixture.alice) 1 1 body = r.
Proof.
  intros body r.
  assert (primary_key_ok Fixture.db0) as Hok
    by (apply (bool_decide_unpack _); vm_compute; exact I).
  assert (Fixture.bob_on_report ∈ filePermissions Fixture.db0) as Hrow
    by left.
  destruct (patch_returns_updated_row Fixture.db0 Fixture.alice 1
              Fixture.report Fixture.bob_on_report body Hok eq_refl
              (or_intror eq_refl) Hrow eq_refl)
    as (Hreply & _ & _ & Hagain).
  split; [exact Hreply | exact Hagain].
Defined.


(** ** Deleting files and users *)

(** X9.  An admin deleting a stored file whose upload is on disk gets 200:
    the file and every grant on it are gone, its path is off the disk, and
    every other file, the grants on it, the users and the other paths are
    as before.  When the upload is not on disk the request dies before the
    database is touched: the row stays and nothing is answered. *)
Theorem delete_file_cascades (db : Db) (disk : gset string) (u : User.t)
    (id : Z) (file : File.t) :
  User.isAdmin u = true →
  getFile db id = Some file →
  let r := delete_file db disk (Some u) id in
  (File.path file ∈ disk →
     r.2 = Sent (sendStatus 200)
     ∧ getFile r.1.1 id = None
     ∧ getFilePermissions r.1.1 id = []
     ∧ users r.1.1 = users db
     ∧ (∀ other, other ≠ id →
          getFile r.1.1 other = getFile db other
          ∧ getFilePermissions r.1.1 other = getFilePermissions db other)
     ∧ ∀ p, p ∈ r.1.2 ↔ p ∈ disk ∧ p ≠ File.path file)
  ∧ (File.path file ∉ disk → r = (db, disk, Unhandled)).
Proof.
  intros Hadmin Hfile r. subst r. unfold delete_file, unlink.
  rewrite Hadmin, Hfile. simpl.
  apply getFile_Some in Hfile as [_ Hid]. rewrite Hid.
  split; intros Hdisk.
  - rewrite decide_True by done. simpl.
    split; [done|]. split; [apply getFile_deleteFile_eq|].
    split.
    { unfold getFilePermissions. simpl. apply elem_of_nil_inv.
      intros row Hrow. apply list_elem_of_filter in Hrow as [Heq Hrow].
      by apply list_elem_of_filter in Hrow as [Hne _]. }
    split; [done|]. split.
    + intros other Hne. split; [by apply getFile_deleteFile_ne|].
      unfold getFilePermissions. simpl.
      apply list_filter_filter_l. intros row. congruence.
    + intros p. set_solver.
  - by rewrite decide_False.
Qed.

(** root deletes the report; then bob's notes, whose upload has gone
    missing. *)
Lemma delete_file_cascades_witness :
  let r := delete_file Fixture.db0 Fixture.disk0 (Some Fixture.root) 1 in
  let lost : gset string := {[ "uploads/a1" ]} in
  (r.2 = Sent (sendStatus 200)
   ∧ filePermissions r.1.1 = [Fixture.carol_on_notes]
   ∧ getFile r.1.1 2 = Some Fixture.notes)
  ∧ delete_file Fixture.db0 lost (Some Fixture.root) 2
    = (Fixture.db0, lost, Unhandled).
Proof.
  intros r lost. split.
  - assert (File.path Fixture.report ∈ Fixture.disk0) as Hdisk
      by (apply (bool_decide_unpack _); vm_compute; exact I).
    destruct (proj1 (delete_file_cascades Fixture.db0 Fixture.disk0
                       Fixture.root 1 Fixture.report eq_refl eq_refl) Hdisk)
      as (Hreply & _ & _ & _ & Hother & _).
    split; [exact Hreply|]. split; [vm_compute; reflexivity|].
    exact (proj1 (Hother 2 ltac:(discriminate))).
  - assert (File.path Fixture.notes ∉ lost) as Hdisk
      by (apply (bool_decide_unpack _); vm_compute; exact I).
    exact (proj2 (delete_file_cascades Fixture.db0 lost Fixture.root 2
                    Fixture.notes eq_refl eq_refl) Hdisk).
Defined.



(** ** What a request without the admin flag can reach *)






(** ** The relay keeps order *)

Lemma on_message_lookup clients0 message peer :
  on_message clients0 message !! peer
  = (λ client,
       if decide (readyState client = OPEN)
       then mkSocket (readyState client) (sent client ++ [message])
       else client) <$> clients0 !! peer.
Proof. unfold on_message. by rewrite lookup_fmap. Qed.

(** X12.  Messages written by connected clients reach a socket that is
    connected and OPEN in the order they were written, each once, after what
    it had been sent before; a socket that is not OPEN is sent none of
    them. *)
Theorem relay_keeps_order (ms : list (nat * string)) (s : Server)
    (peer : nat) (c : Socket) :
  Forall (λ wm, is_Some (clients s !! wm.1)) ms →
  clients s !! peer = Some c →
  clients (run s (writes ms)) !! peer
  = Some (if decide (readyState c = OPEN)
          then mkSocket OPEN (sent c ++ ms.*2)
          else c).
Proof.
  revert s c. induction ms as [|[w m] ms IH]; intros s c Hsenders Hpeer.
  { simpl. rewrite Hpeer. case_decide as Hopen; [|done].
    destruct c as [st out]. simpl in *. by rewrite Hopen, app_nil_r. }
  apply Forall_cons in Hsenders as [[sender Hsender] Hsenders].
  simpl in *. rewrite Hsender. simpl.
  set (s' := mkServer (db s) (disk s) (on_message (clients s) m)).
  assert (Forall (λ wm, is_Some (clients s' !! wm.1)) ms) as Hsenders'.
  { eapply Forall_impl; [exact Hsenders|]. intros [w' m'] [c' Hc']. simpl in *.
    rewrite on_message_lookup, Hc'. by eauto. }
  destruct (decide (readyState c = OPEN)) as [Hopen | Hshut].
  - rewrite (IH s' (mkSocket (readyState c) (sent c ++ [m])) Hsenders').
    + simpl. rewrite decide_True by done. by rewrite <- app_assoc.
    + simpl. rewrite on_message_lookup, Hpeer. simpl.
      by rewrite decide_True.
  - rewrite (IH s' c Hsenders').
    + by rewrite decide_False.
    + simpl. rewrite on_message_lookup, Hpeer. simpl.
      by rewrite decide_False.
Qed.

Lemma relay_keeps_order_witness :
  clients (run Fixture.server0
             (writes [(7%nat, "first"); (8%nat, "second"); (7%nat, "third")]))
    !! 8%nat
  = Some (mkSocket OPEN ["first"; "second"; "third"]).
Proof.
  assert (Forall (λ wm : nat * string,
                    is_Some (clients Fixture.server0 !! wm.1))
            [(7%nat, "first"); (8%nat, "second"); (7%nat, "third")])
    as Hsenders
    by (repeat constructor; eexists; reflexivity).
  exact (relay_keeps_order _ Fixture.server0 8 (mkSocket OPEN [])
           Hsenders eq_refl).
Defined.

(** ** The listing and the gate *)

(** X13.  The listing and the access gate agree: a stored file is in a
    user's listing exactly when the gate lets that user through to it.  For
    an admin the listing is the whole input. *)
Theorem listing_agrees_with_gate (db : Db) (u : User.t) (file : File.t) :
  getFile db (File.id file) = Some file →
  (∀ fs, file ∈ fs →
     (file ∈ filterReadable db u fs
      ↔ ensureFileAccess db (Some u) (File.id file) = Next))
  ∧ (User.isAdmin u = true → ∀ fs, filterReadable db u fs = fs).
Proof.
  intros Hfile. split.
  - intros fs Hin. rewrite elem_of_filterReadable.
    unfold accessibleFile, ensureFileAccess. rewrite Hfile.
    destruct (User.isAdmin u || _); [by split|].
    destruct (getUserFilePermission db (File.id file) (User.id u)) as [p|];
      [|split; [by intros [_ ?] | done]].
    destruct (FilePermission.canRead p); simpl;
      [by split | split; [by intros [_ ?] | done]].
  - intros Hadmin fs. induction fs as [|f fs IH]; [done|].
    rewrite filterReadable_cons, IH. unfold accessibleFile.
    by rewrite Hadmin.
Qed.

Lemma listing_agrees_with_gate_witness :
  (Fixture.notes ∈ filterReadable Fixture.db0 Fixture.carol
                     (getFiles Fixture.db0)
   ↔ ensureFileAccess Fixture.db0 (Some Fixture.carol) 2 = Next)
  ∧ filterReadable Fixture.db0 Fixture.root (getFiles Fixture.db0)
    = [Fixture.report; Fixture.notes].
Proof.
  destruct (listing_agrees_with_gate Fixture.db0 Fixture.carol
              Fixture.notes eq_refl) as [Hagree _].
  destruct (listing_agrees_with_gate Fixture.db0 Fixture.root
              Fixture.notes eq_refl) as [_ Hall].
  split.
  - apply (Hagree (getFiles Fixture.db0)). right. left.
  - exact (Hall eq_refl (getFiles Fixture.db0)).
Defined.

(** ** Uploads *)





(** ** Preview and download agree on the kind of a file *)

Lemma prefix_head a p s :
  String.prefix (String a p) s = true → ∃ rest, s = String a rest.
Proof.
  destruct s as [|b s]; simpl; [done|].
  destruct (Ascii.ascii_dec a b) as [<- | ?]; [by eauto | done].
Qed.

(** X15.  The preview dialog shows exactly one of its four panes, and the
    pane matches what the download route sends for the file: the text pane
    when the route sends the content itself (or fails to read it), the image
    or the PDF pane when it sends the file [inline], and "no preview" when
    it sends the file as an [attachment]. *)
Theorem preview_matches_delivery (read : string → option string)
    (file : File.t) :
  let named disposition :=
    SendFile (disposition +:+ "; filename=" +:+ quote
                +:+ File.name file +:+ quote)
             (File.mimeType file) (File.path file) in
  match panes file with
  | [TextPane] =>
    send_file read file
    = match read (File.path file) with
      | Some content => Content (File.mimeType file) content
      | None => ReadFailed
      end
  | [ImagePane] | [PdfPane] => send_file read file = named "inline"
  | [NoPreviewPane] => send_file read file = named "attachment"
  | _ => False
  end.
Proof.
  destruct file as [id name path size mime owner].
  unfold panes, send_file, isImage, isPDF, isText, startsWith. simpl.
  destruct (String.prefix "image/" mime) eqn:Himage.
  { apply prefix_head in Himage as [rest ->]. reflexivity. }
  destruct (String.eqb mime "application/pdf") eqn:Hpdf.
  { apply String.eqb_eq in Hpdf as ->. reflexivity. }
  destruct (String.prefix "text/" mime) eqn:Htext; simpl; [done|].
  by destruct (String.eqb mime "application/json").
Qed.

(** ** The share dialog *)

(** X16.  The share dialog never asks the server to share with the user who
    is signed in, and what it asks for is always a read-only grant for a
    listed user with the name typed in; for a name that is not in the list
    it asks for nothing and shows "User not found". *)
Theorem dialog_never_shares_with_self (users : list User.t)
    (username : string) (c : User.t) :
  (∀ data,
     handleAddPermission users username (Some c) = Mutate data →
     ∃ target,
       target ∈ users ∧ User.username target = username
       ∧ User.id target ≠ User.id c
       ∧ data = PermissionBody.mk (Some (User.id target))
                  (Some true) (Some false) (Some false))
  ∧ ((∀ x, x ∈ users → User.username x ≠ username) →
     handleAddPermission users username (Some c)
     = Toast "User not found" "Please enter a valid username").
Proof.
  unfold handleAddPermission. split.
  - intros data.
    destruct (head (filter _ users)) as [target|] eqn:Hfind; [|done].
    apply head_filter_Some in Hfind as [Hin Hname].
    case_bool_decide as Hself; [done|].
    intros [= <-]. by exists target.
  - intros Hnone.
    by rewrite (proj2 (head_filter_None _ users) Hnone).
Qed.

Lemma dialog_never_shares_with_self_witness :
  handleAddPermission (users Fixture.db0) "bob" (Some Fixture.alice)
  = Mutate (PermissionBody.mk (Some 2) (Some true) (Some false) (Some false))
  ∧ ∃ target, target ∈ users Fixture.db0
              ∧ User.id target ≠ User.id Fixture.alice
              ∧ User.username target = "bob".
Proof.
  assert (handleAddPermission (users Fixture.db0) "bob" (Some Fixture.alice)
          = Mutate (PermissionBody.mk (Some 2) (Some true) (Some false)
                      (Some false))) as Hasks by (vm_compute; reflexivity).
  split; [exact Hasks|].
  destruct (proj1 (dialog_never_shares_with_self (users Fixture.db0) "bob"
                     Fixture.alice) _ Hasks)
    as (target & Hin & Hname & Hother & _).
  exists target. split; [exact Hin|]. split; [exact Hother | exact Hname].
Defined.

Lemma grant_routes_refusal db u fileId file :
  getFile db fileId = Some file →
  User.isAdmin u = false → File.uploadedBy file ≠ User.id u →
  (∀ permissionId body,
     statusOf (patch_permission db (Some u) fileId permissionId body).2
     = Some 403)
  ∧ (∀ permissionId,
       statusOf (delete_permission db (Some u) fileId permissionId).2
       = Some 403).
Proof.
  intros Hfile Hadmin Howner.
  split; intros; unfold patch_permission, delete_permission;
    (destruct (ensureFileAccess_existing db u fileId file Hfile)
      as [Hgate | Hgate]; rewrite Hgate; [|done]);
    rewrite Hfile, Hadmin; by rewrite bool_decide_eq_false_2.
Qed.

(** X17.  The share dialog and the server agree on who manages grants: for
    a stored file, the dialog enables its update and remove controls for the
    signed-in user exactly when the server does not refuse that user's PATCH
    and DELETE with 403; and whoever is offered the form to add a grant is
    not refused by POST either. *)
Theorem dialog_controls_match_server (db : Db) (c : User.t) (fileId : Z)
    (file : File.t) :
  getFile db fileId = Some file →
  (∀ permissionId body,
     canManagePermissions (Some c) file = true
     ↔ statusOf (patch_permission db (Some c) fileId permissionId body).2
       ≠ Some 403)
  ∧ (∀ permissionId,
       canManagePermissions (Some c) file = true
       ↔ statusOf (delete_permission db (Some c) fileId permissionId).2
         ≠ Some 403)
  ∧ (canManagePermissions (Some c) file = true →
     ∀ body, statusOf (post_permission db (Some c) fileId body).2 ≠ Some 403).
Proof.
  intros Hfile. unfold canManagePermissions.
  destruct (User.isAdmin c) eqn:Hadmin; simpl.
  - destruct (grant_routes_admin_or_owner db c fileId file Hfile
                (or_introl Hadmin)) as (Hpost & Hpatch & Hdelete).
    split; [|split].
    + intros pid body. split; [|done]. intros _. rewrite Hpatch.
      by destruct (updateFilePermission _ _ _) as [? [?|?]].
    + intros pid. split; [|done]. intros _. by rewrite Hdelete.
    + intros _ body. rewrite Hpost.
      by destruct (createFilePermission _ _) as [? [?|?]].
  - case_bool_decide as Howner.
    + destruct (grant_routes_admin_or_owner db c fileId file Hfile
                  (or_intror Howner)) as (Hpost & Hpatch & Hdelete).
      split; [|split].
      * intros pid body. split; [|done]. intros _. rewrite Hpatch.
        by destruct (updateFilePermission _ _ _) as [? [?|?]].
      * intros pid. split; [|done]. intros _. by rewrite Hdelete.
      * intros _ body. rewrite Hpost.
        by destruct (createFilePermission _ _) as [? [?|?]].
    + destruct (grant_routes_refusal db c fileId file Hfile Hadmin Howner)
        as [Hpatch Hdelete].
      split; [|split]; [| |done].
      * intros pid body. split; [done|]. intros Hnot.
        by destruct Hnot.
      * intros pid. split; [done|]. intros Hnot. by destruct Hnot.
Qed.

(** bob may share the report, yet the dialog gives him no controls and the
    server refuses his update; alice has both. *)
Lemma dialog_controls_match_server_witness :
  canManagePermissions (Some Fixture.bob) Fixture.report = false
  ∧ statusOf (patch_permission Fixture.db0 (Some Fixture.bob) 1 2
                (PermissionPatch.mk (Some false) None None)).2 = Some 403
  ∧ canManagePermissions (Some Fixture.alice) Fixture.report = true
  ∧ statusOf (delete_permission Fixture.db0 (Some Fixture.alice) 1 2).2
    ≠ Some 403.
Proof.
  destruct (dialog_controls_match_server Fixture.db0 Fixture.alice 1
              Fixture.report eq_refl) as (_ & Hdelete & _).
  split; [reflexivity|]. split; [vm_compute; reflexivity|].
  split; [reflexivity|].
  exact (proj1 (Hdelete 2) eq_refl).
Defined.
